(** * Pendulum balancing notebooks

    A shallow embedding of the notebook code: random-policy sampling of an
    environment's dynamics, the small-angle least-squares fit, the discrete
    LQR synthesis cell, the PD torque controller of the robot arm, the URDF
    editing routine and the [EnvRealistic] wrapper.

    Numbers.  Python ints are [Z].  Where only the control flow, the
    shapes or the algebra of the code matter, finite floating point values
    are read as the rationals they denote ([Q]); a decimal literal of the
    source is then the rational it spells, except [np.pi] and the default
    tolerance, which are the binary64 constants.  Where the value that
    reaches the simulator matters, the code is embedded a second time over
    binary64 numbers ([float]), with their infinities and not-a-number.
    Library calls whose code is not part of the notebooks (the environment,
    the random generator, the physics server, [OLS], [dlqr]) are Section
    variables. *)

From Stdlib Require Import QArith Qabs Qminmax ZArith List Lia Lqa.
From Corelib Require Import PrimFloat.
From stdpp Require Import gmap strings list.

#[local] Set Warnings "-inexact-float".

Local Open Scope Q_scope.

(** ** Python-level helpers *)

Module Py.

(** Exceptions that the modelled code can raise. *)
Inductive exn : Type :=
| IndexError
| ValueError
| FileNotFoundError
| PermissionError
| NameError
| TypeError.

(** Outcome of a call: a value, or an exception that reached the caller. *)
Inductive result (A : Type) : Type :=
| Ok (a : A)
| Raise (e : exn).
Arguments Ok {A} a.
Arguments Raise {A} e.

(** An exception ends the computation it occurs in. *)
#[export] Instance result_ret : MRet result := fun _ a => Ok a.
#[export] Instance result_bind : MBind result := fun _ _ f m =>
  match m with
  | Ok a => f a
  | Raise e => Raise e
  end.

(** What one pass through a loop body does: fall through to the next
    iteration with an updated state, or leave the function with [return]. *)
Inductive flow (S R : Type) : Type :=
| Continue (s : S)
| Return (r : R).
Arguments Continue {S R} s.
Arguments Return {S R} r.

(** [for _ in range(n): body].  [inl] is the state after the loop ran to
    completion, [inr] the value of a [return] executed inside the body. *)
Fixpoint for_range {S R : Type} (n : nat) (body : S -> flow S R) (st : S)
  : S + R :=
  match n with
  | O => inl st
  | Datatypes.S n' =>
      match body st with
      | Continue st' => for_range n' body st'
      | Return r => inr r
      end
  end.

(** [l[k]] for a Python list and a Python int, negative indices counting
    from the end; [None] stands for [IndexError]. *)
Definition index {A : Type} (l : list A) (k : Z) : option A :=
  let len := Z.of_nat (length l) in
  if (0 <=? k)%Z then l !! Z.to_nat k
  else if (- len <=? k)%Z then l !! Z.to_nat (len + k)
  else None.

(** [a - b] for two Python tuples: tuples have no subtraction, so the
    expression raises [TypeError] whatever they hold. *)
Definition tuple_sub {A : Type} (a b : list A) : result (list A) := Raise TypeError.

(** [a < b] on numbers, as a boolean. *)
Definition ltb (a b : Q) : bool := negb (Qle_bool b a).

End Py.

Import Py.

(** ** Observations and transition samples *)

(** A state [s] of either environment: the four components [s[0]] to
    [s[3]] (cart position, cart velocity, pole angle, pole angular
    velocity). *)
Record observation : Type := Obs {
  ob0 : Q;
  ob1 : Q;
  ob2 : Q;
  ob3 : Q
}.

(** One dict appended to [samples]; the dataframe is the list of them, in
    order.  [input] is the column ['2u - 1'] of the cart-pole sampler and
    the column ['u'] of the realistic one. *)
Record row : Type := Row {
  x : Q;
  x_dot : Q;
  theta : Q;
  theta_dot : Q;
  input : Z;
  evolution_x : Q;
  evolution_x_dot : Q;
  evolution_theta_dot : Q
}.

(** The pre-step state a row records. *)
Definition pre_state (r : row) : observation :=
  Obs (x r) (x_dot r) (theta r) (theta_dot r).

(** The dict literal of both samplers: all of [s], the input column, and
    components 0, 1 and 3 of [next_s]. *)
Definition sample_dict (s : observation) (u : Z) (next_s : observation) : row :=
  {| x := ob0 s; x_dot := ob1 s; theta := ob2 s; theta_dot := ob3 s;
     input := u;
     evolution_x := ob0 next_s;
     evolution_x_dot := ob1 next_s;
     evolution_theta_dot := ob3 next_s |}.

(** ** Random-policy sampling of the cart-pole environment *)

Module Sampling.
Section Gym.

(** The environment object's hidden state and the global random
    generator's state. *)
Context {E G : Type}.

(** [env.reset()] gives [(s, info)]; the code drops [info]. *)
Variable reset : E -> observation * E.
(** [env.step(a)] gives [(next_s, reward, terminated, truncated, info)];
    kept here: [next_s], [terminated], [truncated]. *)
Variable step : E -> Z -> observation * bool * bool * E.
(** [np.random.randint(low, high)]. *)
Variable randint : Z -> Z -> G -> Z * G.

(** Loop state: the environment, the generator, the current [s] and the
    [samples] list. *)
Definition loop_state : Type := (E * G * observation * list row)%type.

(** Body of the [for] loop of [generate_sample_of_system_dynamics]. *)
Definition body (st : loop_state) : flow loop_state (list row) :=
  let '(env, g, s, samples) := st in
  let '(a, g) := randint 0 2 g in
  let '(next_s, d, _, env) := step env a in
  let samples := samples ++ [sample_dict s (2 * a - 1)%Z next_s] in
  if d then
    let '(s, env) := reset env in Continue (env, g, s, samples)
  else
    Continue (env, g, next_s, samples).

(** [generate_sample_of_system_dynamics(env, nb_samples)]: the dataframe,
    with the environment and generator left behind. *)
Definition generate_sample_of_system_dynamics (env : E) (g : G)
    (nb_samples : Z) : list row * E * G :=
  let samples := [] in
  let '(s, env) := reset env in
  match for_range (Z.to_nat nb_samples) body (env, g, s, samples) with
  | inl (env, g, _, samples) => (samples, env, g)
  | inr df => (df, env, g)
  end.

(** The environment, generator and current state with which iteration
    [i] of the loop starts. *)
Definition start_of (env : E) (g : G) : E * G * observation :=
  let '(s, env) := reset env in (env, g, s).

(** What one pass of the loop does to them: a draw, a step, and a reset
    of the stepped environment when the step terminated the episode. *)
Definition advance (st : E * G * observation) : E * G * observation :=
  let '(env, g, s) := st in
  let '(a, g) := randint 0 2 g in
  let '(next_s, d, _, env) := step env a in
  if d then let '(s, env) := reset env in (env, g, s)
  else (env, g, next_s).

(** The same after [i] passes, from the initial [reset]. *)
Definition before_iteration (i : nat) (env : E) (g : G)
  : E * G * observation :=
  Nat.iter i advance (start_of env g).

(** The row iteration [i] appends. *)
Definition row_of (st : E * G * observation) : row :=
  let '(env, g, s) := st in
  let '(a, _) := randint 0 2 g in
  let '(next_s, _, _, _) := step env a in
  sample_dict s (2 * a - 1)%Z next_s.

End Gym.
End Sampling.

(** ** The realistic sampler *)

Module Realistic.
Section Env.

Context {E G : Type}.

(** [env.reset()] gives the state. *)
Variable reset : E -> observation * E.
(** [env.step(a)] gives [(state, dead, truncated)]. *)
Variable step : E -> Z -> observation * bool * bool * E.
Variable randint : Z -> Z -> G -> Z * G.

(** Class attribute [EnvRealistic.action_space]. *)
Definition action_space : list Z := [(-1)%Z; 1%Z].

Definition loop_state : Type := (E * G * observation * list row)%type.

(** What the function hands back: a dataframe, [None] when control falls
    off the end of the function, or an exception. *)
Definition outcome : Type := (result (option (list row)) * E * G)%type.

(** Body of the [for] loop of
    [generate_sample_of_system_dynamics_realistic].  The [return] is the
    last statement of the body, at the indentation of the [if]. *)
Definition body (st : loop_state) : flow loop_state outcome :=
  let '(env, g, s, samples) := st in
  let '(k, g) := randint 0 2 g in
  match index action_space k with
  | None => Return (Raise IndexError, env, g)
  | Some a =>
      let '(next_s, dead, trunc, env) := step env a in
      let samples := samples ++ [sample_dict s a next_s] in
      let '(s, env) :=
        if dead || trunc then reset env else (next_s, env) in
      Return (Ok (Some samples), env, g)
  end.

(** [generate_sample_of_system_dynamics_realistic(env, nb_samples)];
    [tqdm] only decorates the iteration over [range(nb_samples)]. *)
Definition generate_sample_of_system_dynamics_realistic (env : E) (g : G)
    (nb_samples : Z) : outcome :=
  let samples := [] in
  let '(s, env) := reset env in
  match for_range (Z.to_nat nb_samples) body (env, g, s, samples) with
  | inl (env, g, _, _) => (Ok None, env, g)
  | inr out => out
  end.

(** Number of rows of what was returned; [None] when no dataframe was. *)
Definition nb_rows (out : outcome) : option nat :=
  match out with
  | (Ok (Some df), _, _) => Some (length df)
  | _ => None
  end.

(** Row [i] of the returned dataframe, if there is one. *)
Definition returned_row (out : outcome) (i : nat) : option row :=
  match out with
  | (Ok (Some df), _, _) => df !! i
  | _ => None
  end.

End Env.
End Realistic.

(** ** numpy on one-dimensional arrays *)

Module Np.

(** Elementwise binary operation with numpy's broadcasting rule for two
    one-dimensional arrays: equal lengths, or one of them of length 1;
    anything else raises [ValueError]. *)
Definition broadcast (f : Q -> Q -> Q) (a b : list Q) : result (list Q) :=
  if decide (length a = length b) then Ok (zip_with f a b)
  else match a, b with
       | [u], _ => Ok (map (f u) b)
       | _, [v] => Ok (map (fun u => f u v) a)
       | _, _ => Raise ValueError
       end.

Definition sub := broadcast Qminus.
Definition mul := broadcast Qmult.
Definition add := broadcast Qplus.
(** Division by a zero entry gives an infinity or a not-a-number in
    numpy, which the rationals do not have. *)
Definition div := broadcast Qdiv.

Definition sum (a : list Q) : Q := fold_left Qplus a 0.

(** [np.mean] of a non-empty array. *)
Definition mean (a : list Q) : Q := sum a / inject_Z (Z.of_nat (length a)).

(** [np.dot] of two one-dimensional arrays: the lengths must agree. *)
Definition dot (a b : list Q) : result Q :=
  if decide (length a = length b) then Ok (sum (zip_with Qmult a b))
  else Raise ValueError.

(** [np.abs]. *)
Definition abs (a : list Q) : list Q := map Qabs a.

(** [np.max]; the maximum of an empty array raises [ValueError]. *)
Definition max (a : list Q) : result Q :=
  match a with
  | [] => Raise ValueError
  | u :: rest => Ok (fold_left Qmax rest u)
  end.

(** [np.clip(a, a_min, a_max)]: [minimum(a_max, maximum(a, a_min))]. *)
Definition clip1 (a_min a_max u : Q) : Q := Qmin a_max (Qmax u a_min).
Definition clip (a : list Q) (a_min a_max : Q) : list Q :=
  map (clip1 a_min a_max) a.

(** [np.ones((n,))] and [np.zeros_like]. *)
Definition ones (n : nat) : list Q := repeat 1 n.
Definition zeros_like (a : list Q) : list Q := map (fun _ => 0) a.

(** [c * a] for a Python scalar [c]. *)
Definition scale (c : Q) (a : list Q) : list Q := map (Qmult c) a.

(** [np.pi], the binary64 number nearest to pi. *)
Definition pi : Q := 884279719003555 # 281474976710656.

End Np.

(** ** PD torque control of the arm *)

Module Control.

(** [pd_control]: every operator is an elementwise numpy operation and can
    fail on the shapes. *)
Definition pd_control (q_desired v_desired q_measured v_measured Kp Kd : list Q)
  : result (list Q) :=
  position_error ← Np.sub q_desired q_measured;
  velocity_error ← Np.sub v_desired v_measured;
  p ← Np.mul Kp position_error;
  d ← Np.mul Kd velocity_error;
  Np.add p d.

(** [np.max(np.abs(measured - desired)) < eps]. *)
Definition within (measured desired : list Q) (eps : Q) : result bool :=
  diff ← Np.sub measured desired;
  m ← Np.max (Np.abs diff);
  Ok (ltb m eps).

Section Bullet.

(** State of the physics server. *)
Context {W : Type}.

Variable getNumJoints : W -> nat.
(** [pybullet.getJointState(robot_id, i)], entries 0 and 1: position and
    velocity. *)
Variable getJointState : W -> Z -> Q * Q.
(** [pybullet.setJointMotorControl2] in [TORQUE_CONTROL] mode. *)
Variable torque_control : W -> Z -> Q -> W.
Variable stepSimulation : W -> W.
Variable calculateInverseKinematics : W -> Z -> list Q -> list Q.

(** The server together with the torque commands sent to it so far, oldest
    first: joint index and [force]. *)
Definition sim : Type := (W * list (Z * Q))%type.

Definition setJointMotorControl2 (st : sim) (jointIndex : Z) (force : Q) : sim :=
  (torque_control (fst st) jointIndex force, snd st ++ [(jointIndex, force)]).

(** [pybullet.getJointStates(robot_id, list(range(nq)))]. *)
Definition getJointStates (w : W) (nq : nat) : list (Q * Q) :=
  map (fun i => getJointState w (Z.of_nat i)) (seq 0 nq).

(** [for i in range(nq): setJointMotorControl2(..., force=tau[i])], over
    the indices still to do. *)
Fixpoint apply_torques (tau : list Q) (todo : list nat) (st : sim)
  : result unit * sim :=
  match todo with
  | [] => (Ok tt, st)
  | i :: todo =>
      match tau !! i with
      | None => (Raise IndexError, st)
      | Some force =>
          apply_torques tau todo (setJointMotorControl2 st (Z.of_nat i) force)
      end
  end.

(** One pass through [for step in range(1000)]. *)
Definition control_body (q_desired v_desired : list Q) (eps : Q) (nq : nat)
    (Kp Kd : list Q) (st : sim) : flow sim (result unit * sim) :=
  let joint_states := getJointStates (fst st) nq in
  let q_measured := map fst joint_states in
  let v_measured := map snd joint_states in
  let reached :=
    match within q_measured q_desired eps with
    | Raise e => Raise e
    | Ok false => Ok false
    | Ok true => within v_measured v_desired eps
    end in
  match reached with
  | Raise e => Return (Raise e, st)
  | Ok true => Return (Ok tt, st)
  | Ok false =>
      match pd_control q_desired v_desired q_measured v_measured Kp Kd with
      | Raise e => Return (Raise e, st)
      | Ok t =>
          let tau := Np.clip t (-50) 50 in
          match apply_torques tau (seq 0 nq) st with
          | (Raise e, st) => Return (Raise e, st)
          | (Ok _, st) => Continue (stepSimulation (fst st), snd st)
          end
      end
  end.

(** [control_to_desired_configuration(q_desired, v_desired, eps)]. *)
Definition control_to_desired_configuration (q_desired v_desired : list Q)
    (eps : Q) (st : sim) : result unit * sim :=
  let nq := getNumJoints (fst st) in
  let Kp := Np.scale 20 (Np.ones nq) in
  let Kd := Np.scale 0.05 Kp in
  match for_range 1000 (control_body q_desired v_desired eps nq Kp Kd) st with
  | inl st => (Ok tt, st)
  | inr out => out
  end.

(** Default value of [eps]: the binary64 number that [1e-6] denotes,
    [0x1.0c6f7a0b5ed8dp-20]. *)
Definition eps_default : Q := 4722366482869645 # 4722366482869645213696.

(** [move_end_effector_along_trajectory(traj, eff_idx)]. *)
Fixpoint move_end_effector_along_trajectory (traj : list (list Q))
    (eff_idx : Z) (st : sim) : result unit * sim :=
  match traj with
  | [] => (Ok tt, st)
  | target :: traj =>
      let q_desired := calculateInverseKinematics (fst st) eff_idx target in
      match control_to_desired_configuration q_desired
              (Np.zeros_like q_desired) eps_default st with
      | (Raise e, st) => (Raise e, st)
      | (Ok _, st) => move_end_effector_along_trajectory traj eff_idx st
      end
  end.

End Bullet.
End Control.

(** ** Fitting the local linear model *)

Module Fitting.

(** The columns of the sample dataframe. *)
Inductive column : Type :=
| c_x
| c_x_dot
| c_theta
| c_theta_dot
| c_input
| c_evolution_x
| c_evolution_x_dot
| c_evolution_theta_dot.

(** The key under which the cart-pole sampler stores each column. *)
Definition label (c : column) : string :=
  match c with
  | c_x => "x"
  | c_x_dot => "x_dot"
  | c_theta => "theta"
  | c_theta_dot => "theta_dot"
  | c_input => "2u - 1"
  | c_evolution_x => "evolution_x"
  | c_evolution_x_dot => "evolution_x_dot"
  | c_evolution_theta_dot => "evolution_theta_dot"
  end.

Definition cell (c : column) (r : row) : Q :=
  match c with
  | c_x => x r
  | c_x_dot => x_dot r
  | c_theta => theta r
  | c_theta_dot => theta_dot r
  | c_input => inject_Z (input r)
  | c_evolution_x => evolution_x r
  | c_evolution_x_dot => evolution_x_dot r
  | c_evolution_theta_dot => evolution_theta_dot r
  end.

(** [df[c]]: one column. *)
Definition series (c : column) (df : list row) : list Q := map (cell c) df.

(** [df[[c1, ..., cn]]]: the listed columns, row by row. *)
Definition frame (cs : list column) (df : list row) : list (list Q) :=
  map (fun r => map (fun c => cell c r) cs) df.

(** The mask [np.abs(samples["theta"]) < 0.05], row by row. *)
Definition small_angle (r : row) : bool := ltb (Qabs (theta r)) 0.05.

(** [samples[np.abs(samples["theta"]) < 0.05]]. *)
Definition small_angle_samples (samples : list row) : list row :=
  List.filter small_angle samples.

Definition predictor_columns : list column :=
  [c_x; c_x_dot; c_theta; c_theta_dot; c_input].

Definition predictors (samples : list row) : list (list Q) :=
  frame predictor_columns (small_angle_samples samples).

Definition outcomes : list column :=
  [c_evolution_x_dot; c_evolution_theta_dot; c_evolution_x].

Section OLS.

(** [OLS(endog, exog).fit()]: the fitted [params] and [mse_resid]. *)
Variable OLS_fit : list Q -> list (list Q) -> list Q * Q.

(** One pass through [for o in outcomes]: the regression of column [o]. *)
Definition fit (samples : list row) (o : column) : list Q * Q :=
  OLS_fit (series o (small_angle_samples samples)) (predictors samples).

(** The whole cell: what it prints for each outcome, in order. *)
Definition fit_cell (samples : list row) : list (string * (list Q * Q)) :=
  map (fun o => (label o, fit samples o)) outcomes.

End OLS.
End Fitting.

(** ** Controller synthesis *)

Module Lqr.

Definition matrix : Type := list (list QArith_base.Q).

(** [M.shape] of a two-dimensional array given by its rows. *)
Definition shape (M : matrix) : nat * nat :=
  (length M, match M with [] => 0%nat | r :: _ => length r end).

(** Every row has the width [shape] reports. *)
Definition rectangular (M : matrix) : Prop :=
  Forall (fun r => length r = snd (shape M)) M.

(** [np.diag(v)] of a one-dimensional [v]. *)
Definition np_diag (v : list QArith_base.Q) : matrix :=
  imap (fun i d => replicate i 0 ++ d :: replicate (length v - S i) 0) v.

(** [M[i, j]], with 0 outside. *)
Definition entry (M : matrix) (i j : nat) : QArith_base.Q :=
  nth j (nth i M []) 0.

Definition symmetric (M : matrix) : Prop :=
  forall i j, entry M i j == entry M j i.

(** [v^T M v]. *)
Definition quadratic_form (M : matrix) (v : list QArith_base.Q) : QArith_base.Q :=
  Np.sum (zip_with Qmult v (map (fun r => Np.sum (zip_with Qmult r v)) M)).

Definition positive_semidefinite (M : matrix) : Prop :=
  symmetric M /\
  forall v, length v = length M -> 0 <= quadratic_form M v.

(** The dimensions a discrete LQR problem needs: [A] is n by n, [B] is n
    by m, [Q] is n by n and [R] is m by m. *)
Definition conform (A B Q R : matrix) : Prop :=
  let n := fst (shape A) in
  let m := snd (shape B) in
  shape A = (n, n) /\ shape B = (n, m) /\ shape Q = (n, n) /\ shape R = (m, m) /\
  rectangular A /\ rectangular B /\ rectangular Q /\ rectangular R.

(** The globals of the synthesis cell. *)
Definition dT : QArith_base.Q := 0.02.

Definition A : matrix := [
  [1; dT; 0; 0];
  [0; 1; -0.014107; 0];
  [0; 0; 1; dT];
  [0.000031; 0.000019; 0.315099; 0.999998]
].

Definition B : matrix := [
  [0];
  [0.195111];
  [0];
  [-0.292548]
].

Definition Q : matrix := np_diag [125; 50; 1200; 25].

Definition R : matrix := np_diag [1.5].

(** What earlier cells left in the notebook's namespace when the synthesis
    cell runs. *)
Record namespace : Type := Namespace {
  samples : list row;
  small_angle_samples : list row;
  predictors : list (list QArith_base.Q);
  fits : list (string * (list QArith_base.Q * QArith_base.Q))
}.

Section Dlqr.

(** Closed-loop eigenvalues, as the solver reports them. *)
Context {Eig : Type}.

(** [control.dlqr]: returns [(K, S, E)]. *)
Variable dlqr : matrix -> matrix -> matrix -> matrix -> matrix * matrix * Eig.

(** The arguments of the [dlqr] call. *)
Definition dlqr_arguments (ns : namespace) : matrix * matrix * matrix * matrix :=
  (A, B, Q, R).

(** The synthesis cell run in namespace [ns]: the value bound to [K]. *)
Definition synthesis_cell (ns : namespace) : matrix :=
  let '(A, B, Q, R) := dlqr_arguments ns in
  let '(K, _, _) := dlqr A B Q R in
  K.

Section Pipeline.

Context {Env G : Type}.
Variable reset : Env -> observation * Env.
Variable step : Env -> Z -> observation * bool * bool * Env.
Variable randint : Z -> Z -> G -> Z * G.
Variable OLS_fit : list QArith_base.Q -> list (list QArith_base.Q)
                   -> list QArith_base.Q * QArith_base.Q.

(** The cells of the notebook up to the synthesis, run in order on an
    environment: sampling with [nb_samples] samples, the fit, the
    synthesis. *)
Definition run_cells (env : Env) (g : G) (nb_samples : Z) : namespace :=
  let '(df, _, _) :=
    Sampling.generate_sample_of_system_dynamics reset step randint env g nb_samples in
  {| samples := df;
     small_angle_samples := Fitting.small_angle_samples df;
     predictors := Fitting.predictors df;
     fits := Fitting.fit_cell OLS_fit df |}.

Definition notebook_gain (env : Env) (g : G) (nb_samples : Z) : matrix :=
  synthesis_cell (run_cells env g nb_samples).

End Pipeline.
End Dlqr.
End Lqr.

(** ** Editing the URDF file *)

Module Urdf.

(** A text is a sequence of code points below 256. *)
Definition newline : Ascii.ascii := Ascii.ascii_of_nat 10.
Definition carriage_return : Ascii.ascii := Ascii.ascii_of_nat 13.

(** What a file opened with [open(path, 'r')] hands to the program:
    Python reads text with universal newlines, so a carriage return
    followed by a line feed, and a carriage return alone, both arrive as
    one line feed. *)
Fixpoint universal_newlines (raw : string) : string :=
  match raw with
  | EmptyString => EmptyString
  | String c rest =>
      if Ascii.eqb c carriage_return then
        match rest with
        | EmptyString => String newline EmptyString
        | String c' rest' =>
            if Ascii.eqb c' newline
            then String newline (universal_newlines rest')
            else String newline (universal_newlines rest)
        end
      else String c (universal_newlines rest)
  end.

(** [str.isspace] on one character: tab to carriage return, the four
    separators 28 to 31, space, next-line and no-break space. *)
Definition isspace (c : Ascii.ascii) : bool :=
  let n := Ascii.nat_of_ascii c in
  ((9 <=? n)%nat && (n <=? 13)%nat) || ((28 <=? n)%nat && (n <=? 32)%nat)
  || (n =? 133)%nat || (n =? 160)%nat.

Fixpoint lstrip (s : string) : string :=
  match s with
  | EmptyString => EmptyString
  | String c s' => if isspace c then lstrip s' else s
  end.

Definition rstrip (s : string) : string := String.rev (lstrip (String.rev s)).

(** [s.strip()]. *)
Definition strip (s : string) : string := rstrip (lstrip s).

(** [file.readlines()] continued: [line] is the part of the current line
    already read. *)
Fixpoint readlines_from (line text : string) : list string :=
  match text with
  | EmptyString => if decide (line = EmptyString) then [] else [line]
  | String c text =>
      if Ascii.eqb c newline
      then (line +:+ String c EmptyString) :: readlines_from EmptyString text
      else readlines_from (line +:+ String c EmptyString) text
  end.

(** [file.readlines()]: the lines of the text read, each with its
    newline. *)
Definition readlines (text : string) : list string :=
  readlines_from EmptyString text.

(** [while urdf_data and urdf_data[-1].strip() == "": urdf_data.pop()];
    every pass pops one line, so [length urdf_data] passes are enough. *)
Fixpoint pop_blank_lines (passes : nat) (urdf_data : list string) : list string :=
  match passes with
  | O => urdf_data
  | S passes =>
      match last urdf_data with
      | None => urdf_data
      | Some l =>
          if decide (strip l = EmptyString)
          then pop_blank_lines passes (removelast urdf_data)
          else urdf_data
      end
  end.

(** The files that can be read, each under its own name, with the
    characters it stores.  Several paths may lead to one file: see
    [addpendulum_urdf_at].  Of the ways [open(path, 'r')] can fail, the
    missing file is the one the model has.  Text is written as it is, the
    line separator of the system being the line feed. *)
Abbreviation filesystem := (gmap string string).

Section Edit.

(** The text of the triple-quoted literal [pendulum_urdf]. *)
Variable pendulum_urdf : string.

(** Whether [open(path, 'w')] is granted. *)
Variable may_write : filesystem -> string -> bool.

(** [addpendulum_urdf(urdf_file_path, save_to_path)] for two paths that
    are the names of the files themselves: how the call ends, and the files
    after it. *)
Definition addpendulum_urdf (fs : filesystem) (urdf_file_path save_to_path : string)
  : result unit * filesystem :=
  match fs !! urdf_file_path with
  | None => (Raise FileNotFoundError, fs)
  | Some text =>
      let urdf_data := readlines (universal_newlines text) in
      let urdf_data := pop_blank_lines (length urdf_data) urdf_data in
      match last urdf_data with
      | None => (Raise IndexError, fs)
      | Some l =>
          let urdf_data :=
            if decide (strip l = "</robot>") then removelast urdf_data
            else urdf_data in
          let urdf_data := urdf_data ++ [pendulum_urdf] in
          let urdf_data := urdf_data ++ ["</robot>" +:+ String newline EmptyString] in
          if may_write fs save_to_path
          then (Ok tt, <[save_to_path := String.concat EmptyString urdf_data]> fs)
          else (Raise PermissionError, fs)
      end
  end.

(** The file that [open] reaches through a path: the system's resolution
    of relative parts and links. *)
Variable resolve : string -> string.


End Edit.
End Urdf.

(** ** Vocabulary of the properties *)

Module Spec.

(** A text made of whitespace only: an empty file, or blank lines and
    nothing else. *)
Fixpoint only_blank (text : string) : bool :=
  match text with
  | EmptyString => true
  | String c text => Urdf.isspace c && only_blank text
  end.

(** Two sample rows that agree on the five predictors and on the outcome
    column [o]; the other outcome columns are free. *)
Definition agree_on (o : Fitting.column) (r r' : row) : Prop :=
  map (fun c => Fitting.cell c r) (o :: Fitting.predictor_columns) =
  map (fun c => Fitting.cell c r') (o :: Fitting.predictor_columns).

End Spec.

(** ** Small concrete collaborators, to run the code on *)

Module Toy.

(** An environment whose hidden state counts the steps of the episode; an
    episode terminates at its third step. *)
Definition reset (e : nat) : observation * nat := (Obs 0 0 0 0, 0%nat).

Definition observe (e : nat) (a : Z) : observation :=
  Obs (inject_Z (Z.of_nat e)) (inject_Z a) (inject_Z (Z.of_nat e) / 100) 0.

Definition step (e : nat) (a : Z) : observation * bool * bool * nat :=
  (observe (S e) a, (S e =? 3)%nat, false, S e).

(** A generator that alternates 0 and 1. *)
Definition randint (low high : Z) (g : nat) : Z * nat :=
  ((low + Z.of_nat g mod (high - low))%Z, S g).

(** A stand-in for the solver with the shape of its answer: a zero gain
    with one row for each column of [B] and one column for each row of
    [A]. *)
Definition dlqr (A B Q R : Lqr.matrix) : Lqr.matrix * Lqr.matrix * unit :=
  (replicate (snd (Lqr.shape B)) (replicate (fst (Lqr.shape A)) 0), [], tt).

(** A physics server reduced to one joint that stays where it is: the
    state is the joint's angle, and the inverse kinematics answers with the
    current angle. *)
Definition getNumJoints (w : Q) : nat := 1.
Definition getJointState (w : Q) (i : Z) : Q * Q := (w, 0).
Definition torque_control (w : Q) (i : Z) (force : Q) : Q := w.
Definition stepSimulation (w : Q) : Q := w.
Definition calculateInverseKinematics (w : Q) (i : Z) (target : list Q) : list Q := [w].

(** A stand-in for the regression routine that hands back the data it was
    given, the outcome values first and the rows of the design after
    them, so that what reached it can be read off its answer. *)
Definition OLS_echo (endog : list Q) (exog : list (list Q)) : list Q * Q :=
  (endog ++ concat exog, inject_Z (Z.of_nat (length exog))).

(** Three samples, the middle one outside the small-angle neighbourhood. *)
Definition near1 : row := Row 1 2 (1 # 100) 3 1 4 5 6.
Definition far : row := Row 90 91 (3 # 10) 92 (-1) 93 94 95.
Definition near2 : row := Row 7 8 (-2 # 100) 9 (-1) 10 11 12.

(** Files: a robot description followed by a blank line, and a file of
    blank lines only. *)
Definition nl : string := String Urdf.newline EmptyString.
Definition pendulum_urdf : string := "  <link name=pendulum_link/>" +:+ nl.
Definition may_write (fs : gmap string string) (path : string) : bool := true.
Definition robot_text : string :=
  "<robot>" +:+ nl +:+ "  <link name=link_6/>" +:+ nl +:+ "</robot>" +:+ nl +:+ " " +:+ nl.
Definition blank_text : string := " " +:+ nl +:+ nl.
Definition files : gmap string string :=
  <["edo.urdf" := robot_text]> (<["blank.urdf" := blank_text]> ∅).

End Toy.

(** ** Resetting the arm *)

Module Arm.

(** A call received by the physics server from [reset_to_initial_state]. *)
Inductive call : Type :=
| ResetJointState (bodyUniqueId jointIndex : Z) (targetValue targetVelocity : Q)
| VelocityControl (bodyIndex jointIndex : Z) (force : Q).

Section Bullet.

Context {W : Type}.

(** [pybullet.getNumJoints(body)]. *)
Variable getNumJoints : W -> Z -> nat.
Variable resetJointState : W -> Z -> Z -> Q -> Q -> W.
(** [pybullet.setJointMotorControl2] in [VELOCITY_CONTROL] mode. *)
Variable velocity_control : W -> Z -> Z -> Q -> W.
(** The global [robot_id]. *)
Variable robot_id : Z.

(** The server and the calls it received so far, oldest first. *)
Definition sim : Type := (W * list call)%type.

(** The body of [for i in range(...)], over the indices still to do. *)
Fixpoint reset_joints (body_id : Z) (initial_joint_positions : list Q)
    (todo : list nat) (st : sim) : result unit * sim :=
  match todo with
  | [] => (Ok tt, st)
  | i :: todo =>
      match initial_joint_positions !! i with
      | None => (Raise IndexError, st)
      | Some target =>
          let j := Z.of_nat i in
          let st := (resetJointState (fst st) body_id j target 0,
                     snd st ++ [ResetJointState body_id j target 0]) in
          let st := (velocity_control (fst st) robot_id j 0,
                     snd st ++ [VelocityControl robot_id j 0]) in
          reset_joints body_id initial_joint_positions todo st
      end
  end.

(** [reset_to_initial_state(body_id, initial_joint_positions)];
    [None] is the default value of the second parameter. *)
Definition reset_to_initial_state (body_id : Z)
    (initial_joint_positions : option (list Q)) (st : sim) : result unit * sim :=
  let initial_joint_positions :=
    match initial_joint_positions with
    | None => repeat 0 (getNumJoints (fst st) body_id)
    | Some l => l
    end in
  reset_joints body_id initial_joint_positions
    (seq 0 (getNumJoints (fst st) body_id)) st.

End Bullet.
End Arm.

(** ** The cells of the first notebook that differ *)

Module Theo.

(** Globals of the torque cell. *)
Definition q_desired : list Q := [0; 0.0; 0; 1.0; 0; 0].
Definition v_desired : list Q := Np.zeros_like q_desired.
Definition Kp : list Q := [0; 0; 0; 100; 0; 0].
Definition Kd : list Q := [0; 0; 0; 0; 0; 0].

Section Bullet.

Context {W : Type}.
Variable getNumJoints : W -> nat.
Variable getJointState : W -> Z -> Q * Q.
Variable torque_control : W -> Z -> Q -> W.
Variable stepSimulation : W -> W.

(** [for i in range(nq): if i==4: setJointMotorControl2(robot_id, 2,
    TORQUE_CONTROL, force=10)], over the indices still to do. *)
Fixpoint apply_torques (todo : list nat) (st : Control.sim (W := W))
  : Control.sim (W := W) :=
  match todo with
  | [] => st
  | i :: todo =>
      apply_torques todo
        (if (i =? 4)%nat
         then Control.setJointMotorControl2 torque_control st 2 10
         else st)
  end.

(** One pass through [for step in range(25)]; the pause of [time.sleep]
    leaves no trace. *)
Definition torque_body (nq : nat) (st : Control.sim (W := W))
  : flow (Control.sim (W := W)) (result unit * Control.sim (W := W)) :=
  let q_measured :=
    map (fun i => fst (getJointState (fst st) (Z.of_nat i))) (seq 0 nq) in
  let v_measured :=
    map (fun i => snd (getJointState (fst st) (Z.of_nat i))) (seq 0 nq) in
  match Control.pd_control q_desired v_desired q_measured v_measured Kp Kd with
  | Raise e => Return (Raise e, st)
  | Ok tau =>
      let st := apply_torques (seq 0 nq) st in
      Continue (stepSimulation (fst st), snd st)
  end.

(** The torque cell, from [nq = p.getNumJoints(robot_id)] on. *)
Definition torque_cell (st : Control.sim (W := W))
  : result unit * Control.sim (W := W) :=
  let nq := getNumJoints (fst st) in
  match for_range 25 (torque_body nq) st with
  | inl st => (Ok tt, st)
  | inr out => out
  end.

End Bullet.

Section Files.

(** The texts of the literals [pendulum_link] and [pendulum_joint]. *)
Variable pendulum_link : string.
Variable pendulum_joint : string.
Variable may_write : gmap string string -> string -> bool.

(** The URDF cell, from [if os.path.exists(urdf_path)] on: the file is
    read, with universal newlines, the two texts are appended and the
    result is written back to the same path; without the file the cell
    only prints. *)
Definition urdf_cell (fs : gmap string string) (urdf_path : string)
  : result unit * gmap string string :=
  match fs !! urdf_path with
  | Some stored =>
      let urdf_content := Urdf.universal_newlines stored in
      let urdf_content := urdf_content +:+ pendulum_link in
      let urdf_content := urdf_content +:+ pendulum_joint in
      if may_write fs urdf_path
      then (Ok tt, <[urdf_path := urdf_content]> fs)
      else (Raise PermissionError, fs)
  | None => (Ok tt, fs)
  end.

End Files.
End Theo.

(** ** More vocabulary of the properties *)

Module Goal.

(** The joints [0 .. nq-1] of the server [w] are within [eps] of the
    desired positions and velocities: the test that ends
    [control_to_desired_configuration]. *)
Definition reached {W : Type} (getJointState : W -> Z -> Q * Q)
    (q_desired v_desired : list Q) (eps : Q) (nq : nat) (w : W) : Prop :=
  Control.within (map fst (Control.getJointStates getJointState w nq)) q_desired eps
    = Ok true /\
  Control.within (map snd (Control.getJointStates getJointState w nq)) v_desired eps
    = Ok true.

(** From [st] to [st'] the server was sent at most [k] torque commands,
    all to joints [0 .. nq-1]. *)
Definition sent_within {W : Type} (nq k : nat) (st st' : Control.sim (W := W)) : Prop :=
  exists sent, snd st' = snd st ++ sent /\ (length sent <= k)%nat /\
    Forall (fun c => (0 <= fst c < Z.of_nat nq)%Z) sent.

(** A text without carriage return. *)
Fixpoint no_cr (text : string) : bool :=
  match text with
  | EmptyString => true
  | String c text => negb (Ascii.eqb c Urdf.carriage_return) && no_cr text
  end.

(** [n] copies of a text, one after the other. *)
Fixpoint copies (n : nat) (s : string) : string :=
  match n with
  | O => EmptyString
  | S n => s +:+ copies n s
  end.

(** The calls that resetting the joints [0 .. k-1] of [body_id] makes: for
    each joint its reset to the listed position at velocity 0, then the
    velocity control of that joint of [robot_id] with force 0. *)
Definition reset_calls (body_id robot_id : Z) (positions : list Q) (k : nat)
  : list Arm.call :=
  flat_map
    (fun i =>
       match positions !! i with
       | Some target =>
           [Arm.ResetJointState body_id (Z.of_nat i) target 0;
            Arm.VelocityControl robot_id (Z.of_nat i) 0]
       | None => []
       end)
    (seq 0 k).

End Goal.

(** ** More concrete collaborators *)

Module Fixture.

(** The toy environment, reporting every step as truncated. *)
Definition step_truncating (e : nat) (a : Z) : observation * bool * bool * nat :=
  let '(o, d, _, e') := Toy.step e a in (o, d, true, e').

(** A server with six joints, all at rest at angle [w]. *)
Definition getNumJoints6 (w : Q) : nat := 6.

(** A server without joints. *)
Definition getNumJoints0 (w : Q) : nat := 0.

(** A server that counts the calls it receives, with three joints. *)
Definition getNumJoints3 (w : nat) (body : Z) : nat := 3.
Definition resetJointState (w : nat) (body joint : Z) (pos vel : Q) : nat := S w.
Definition velocity_control (w : nat) (body joint : Z) (force : Q) : nat := S w.


(** The toy robot description stored with carriage return and line feed
    at the end of each line. *)
Definition cr : string := String Urdf.carriage_return EmptyString.
Definition robot_text_crlf : string :=
  "<robot>" +:+ cr +:+ Toy.nl +:+ "  <link name=link_6/>" +:+ cr +:+ Toy.nl
  +:+ "</robot>" +:+ cr +:+ Toy.nl.
Definition files_crlf : gmap string string := <["edo.urdf" := robot_text_crlf]> ∅.

End Fixture.

(** ** numpy on one-dimensional arrays of binary64 numbers *)

Module FNp.

(** As [Np.broadcast], for binary64 entries. *)
Definition broadcast (f : float -> float -> float) (a b : list float)
  : result (list float) :=
  if decide (length a = length b) then Ok (zip_with f a b)
  else match a, b with
       | [u], _ => Ok (map (f u) b)
       | _, [v] => Ok (map (fun u => f u v) a)
       | _, _ => Raise ValueError
       end.

Definition sub := broadcast PrimFloat.sub.
Definition mul := broadcast PrimFloat.mul.
Definition add := broadcast PrimFloat.add.
(** A division by zero gives an infinity or a not-a-number, as in
    numpy. *)
Definition div := broadcast PrimFloat.div.

(** [np.abs]. *)
Definition abs (a : list float) : list float := map PrimFloat.abs a.

(** [np.maximum] on two numbers: the first when it is a not-a-number or
    not below the second, else the second; a not-a-number on either side
    comes out. *)
Definition maximum (a b : float) : float :=
  if PrimFloat.leb b a || PrimFloat.is_nan a then a else b.

(** [np.max]: the reduction by [np.maximum]; the maximum of an empty array
    raises [ValueError]. *)
Definition max (a : list float) : result float :=
  match a with
  | [] => Raise ValueError
  | u :: rest => Ok (fold_left maximum rest u)
  end.

(** The two steps of [np.clip] on one number: the larger of [a] and the
    lower bound, then the smaller of that and the upper bound, a
    not-a-number passing through both. *)
Definition clip_max (a b : float) : float :=
  if PrimFloat.is_nan a then a else if PrimFloat.ltb b a then a else b.
Definition clip_min (a b : float) : float :=
  if PrimFloat.is_nan a then a else if PrimFloat.ltb a b then a else b.

(** [np.clip(a, a_min, a_max)]. *)
Definition clip1 (a_min a_max u : float) : float := clip_min (clip_max u a_min) a_max.
Definition clip (a : list float) (a_min a_max : float) : list float :=
  map (clip1 a_min a_max) a.

(** [np.ones((n,))] and [np.zeros_like]. *)
Definition ones (n : nat) : list float := repeat 1%float n.
Definition zeros_like (a : list float) : list float := map (fun _ => 0%float) a.

(** [c * a] for a Python scalar [c]. *)
Definition scale (c : float) (a : list float) : list float := map (PrimFloat.mul c) a.

Definition sum (a : list float) : float := fold_left PrimFloat.add a 0%float.

(** The length of an array as a binary64 number. *)
Fixpoint float_of_nat (n : nat) : float :=
  match n with
  | O => 0%float
  | S n => (float_of_nat n + 1)%float
  end.

(** [np.mean]; of an empty array it is the not-a-number [0 / 0]. *)
Definition mean (a : list float) : float :=
  (sum a / float_of_nat (length a))%float.

(** [np.dot] of two one-dimensional arrays: the lengths must agree. *)
Definition dot (a b : list float) : result float :=
  if decide (length a = length b) then Ok (sum (zip_with PrimFloat.mul a b))
  else Raise ValueError.

(** [np.pi]. *)
Definition pi : float := 0x1.921fb54442d18p+1%float.

End FNp.

(** ** PD torque control of the arm, over binary64 numbers

    The functions of [Control] once more, with the arithmetic of the
    machine: what is sent to the simulator is the number the code
    computes. *)

Module FControl.

(** [pd_control]. *)
Definition pd_control (q_desired v_desired q_measured v_measured Kp Kd : list float)
  : result (list float) :=
  position_error ← FNp.sub q_desired q_measured;
  velocity_error ← FNp.sub v_desired v_measured;
  p ← FNp.mul Kp position_error;
  d ← FNp.mul Kd velocity_error;
  FNp.add p d.

(** [np.max(np.abs(measured - desired)) < eps]. *)
Definition within (measured desired : list float) (eps : float) : result bool :=
  diff ← FNp.sub measured desired;
  m ← FNp.max (FNp.abs diff);
  Ok (PrimFloat.ltb m eps).

Section Bullet.

(** State of the physics server. *)
Context {W : Type}.

Variable getNumJoints : W -> nat.
Variable getJointState : W -> Z -> float * float.
Variable torque_control : W -> Z -> float -> W.
Variable stepSimulation : W -> W.
Variable calculateInverseKinematics : W -> Z -> list float -> list float.

(** The server together with the torque commands sent to it so far, oldest
    first: joint index and [force]. *)
Definition sim : Type := (W * list (Z * float))%type.

Definition setJointMotorControl2 (st : sim) (jointIndex : Z) (force : float) : sim :=
  (torque_control (fst st) jointIndex force, snd st ++ [(jointIndex, force)]).

(** [pybullet.getJointStates(robot_id, list(range(nq)))]. *)
Definition getJointStates (w : W) (nq : nat) : list (float * float) :=
  map (fun i => getJointState w (Z.of_nat i)) (seq 0 nq).

(** [for i in range(nq): setJointMotorControl2(..., force=tau[i])], over
    the indices still to do. *)
Fixpoint apply_torques (tau : list float) (todo : list nat) (st : sim)
  : result unit * sim :=
  match todo with
  | [] => (Ok tt, st)
  | i :: todo =>
      match tau !! i with
      | None => (Raise IndexError, st)
      | Some force =>
          apply_torques tau todo (setJointMotorControl2 st (Z.of_nat i) force)
      end
  end.

(** One pass through [for step in range(1000)]. *)
Definition control_body (q_desired v_desired : list float) (eps : float) (nq : nat)
    (Kp Kd : list float) (st : sim) : flow sim (result unit * sim) :=
  let joint_states := getJointStates (fst st) nq in
  let q_measured := map fst joint_states in
  let v_measured := map snd joint_states in
  let reached :=
    match within q_measured q_desired eps with
    | Raise e => Raise e
    | Ok false => Ok false
    | Ok true => within v_measured v_desired eps
    end in
  match reached with
  | Raise e => Return (Raise e, st)
  | Ok true => Return (Ok tt, st)
  | Ok false =>
      match pd_control q_desired v_desired q_measured v_measured Kp Kd with
      | Raise e => Return (Raise e, st)
      | Ok t =>
          let tau := FNp.clip t (-50) 50 in
          match apply_torques tau (seq 0 nq) st with
          | (Raise e, st) => Return (Raise e, st)
          | (Ok _, st) => Continue (stepSimulation (fst st), snd st)
          end
      end
  end.

(** [control_to_desired_configuration(q_desired, v_desired, eps)]. *)
Definition control_to_desired_configuration (q_desired v_desired : list float)
    (eps : float) (st : sim) : result unit * sim :=
  let nq := getNumJoints (fst st) in
  let Kp := FNp.scale 20 (FNp.ones nq) in
  let Kd := FNp.scale 0.05 Kp in
  match for_range 1000 (control_body q_desired v_desired eps nq Kp Kd) st with
  | inl st => (Ok tt, st)
  | inr out => out
  end.

(** Default value of [eps]. *)
Definition eps_default : float := 1e-6%float.

(** [move_end_effector_along_trajectory(traj, eff_idx)]. *)
Fixpoint move_end_effector_along_trajectory (traj : list (list float))
    (eff_idx : Z) (st : sim) : result unit * sim :=
  match traj with
  | [] => (Ok tt, st)
  | target :: traj =>
      let q_desired := calculateInverseKinematics (fst st) eff_idx target in
      match control_to_desired_configuration q_desired
              (FNp.zeros_like q_desired) eps_default st with
      | (Raise e, st) => (Raise e, st)
      | (Ok _, st) => move_end_effector_along_trajectory traj eff_idx st
      end
  end.

End Bullet.
End FControl.

(** ** The realistic environment *)

Module EnvRealistic.

(** Class attributes. *)
Definition scale_action : float := 0.01%float.
Definition TIME_HORIZON : Z := 1000.

(** Instance attributes of [self]. *)
Record self : Type := Self {
  initial_pos : list float;
  line_vector : list float;
  pendulum_link : Z;
  pendulum_joint : Z;
  timestep : Z
}.

(** [__init__(self, a, b, pendulum_link, pendulum_joint)], for two
    arrays [a] and [b]. *)
Definition init (a b : list float) (pendulum_link pendulum_joint : Z) : result self :=
  s ← FNp.add a b;
  l ← FNp.sub b a;
  Ok (Self (map (fun u => (u / 2)%float) s) l pendulum_link pendulum_joint 0).

Definition tick (env : self) : self :=
  Self (initial_pos env) (line_vector env) (pendulum_link env)
       (pendulum_joint env) (timestep env + 1).

(** The tuple [(x, x_dot, theta, theta_dot)]. *)
Definition state : Type := (float * float * float * float)%type.

Section Bullet.

Context {W : Type}.

Variable getNumJoints : W -> nat.
Variable getJointState : W -> Z -> float * float.
Variable torque_control : W -> Z -> float -> W.
Variable stepSimulation : W -> W.
Variable calculateInverseKinematics : W -> Z -> list float -> list float.
(** [pybullet.getLinkState(robot_id, link, computeLinkVelocity=True)]:
    the tuple it returns, each entry a tuple of numbers. *)
Variable getLinkState : W -> Z -> list (list float).

(** What the global name [pendulum_joint], which [step] reads instead of
    the attribute of [self], is bound to in the notebook's namespace;
    [None] when no cell has bound it, as in the notebook itself. *)
Variable global_pendulum_joint : option Z.

(** [get_state(self)].  The first statement unpacks the tuple of
    [getLinkState] into seven names, which raises [ValueError] for any
    other number of entries.  [position] and [velocity] are tuples:
    [position - self.initial_pos] is numpy's subtraction, and
    [velocity - position] is the subtraction of two tuples. *)
Definition get_state (env : self) (w : W) : result state :=
  match getLinkState w (pendulum_link env) with
  | [position; _; _; _; _; _; velocity] =>
      d ← FNp.sub position (initial_pos env);
      q ← FNp.div d (line_vector env);
      let x := FNp.mean q in
      dv ← tuple_sub velocity position;
      x_dot ← FNp.dot dv (line_vector env);
      let theta := fst (getJointState w (pendulum_joint env)) in
      let theta_dot := snd (getJointState w (pendulum_joint env)) in
      Ok (x, x_dot, theta, theta_dot)
  | _ => Raise ValueError
  end.

(** [step(self, action)]: the returned tuple or the exception, the
    updated [self], and the physics server.  The arguments of the call of
    [move_end_effector_along_trajectory] are evaluated before the call, so
    an unbound [pendulum_joint] raises [NameError] before anything
    moves. *)
Definition step (env : self) (action : float) (st : FControl.sim (W := W))
  : result (state * bool * bool) * self * FControl.sim (W := W) :=
  let position := fst (getJointState (fst st) (pendulum_joint env)) in
  let target :=
    map (fun l => (position + (action * scale_action) * l)%float)
        (line_vector env) in
  match global_pendulum_joint with
  | None => (Raise NameError, env, st)
  | Some eff_idx =>
      match FControl.move_end_effector_along_trajectory getNumJoints getJointState
              torque_control stepSimulation calculateInverseKinematics
              [target] eff_idx st with
      | (Raise e, st) => (Raise e, env, st)
      | (Ok _, st) =>
          match get_state env (fst st) with
          | Raise e => (Raise e, env, st)
          | Ok (x, x_dot, theta, theta_dot) =>
              let env := tick env in
              let dead := false in
              let truncated := false in
              let dead :=
                if PrimFloat.ltb (FNp.pi / 16)%float (PrimFloat.abs theta)
                then true else dead in
              let truncated :=
                if (timestep env =? TIME_HORIZON)%Z then true else truncated in
              (Ok ((x, x_dot, theta, theta_dot), dead, truncated), env, st)
          end
      end
  end.

End Bullet.
End EnvRealistic.

(** ** Vocabulary of the properties on binary64 numbers *)

Module Bound.

(** A force as [np.clip(..., -50, 50)] leaves it: -50, 50, a number
    strictly between them, or a not-a-number. *)
Definition clipped (force : float) : Prop :=
  PrimFloat.is_nan force = true \/ force = (-50)%float \/ force = 50%float \/
  (PrimFloat.ltb (-50) force = true /\ PrimFloat.ltb force 50 = true).

(** The bound of the claim: the absolute value is at most 50. *)
Definition within_50 (force : float) : bool := PrimFloat.leb (PrimFloat.abs force) 50.

(** From [st] to [st'] the server was only sent clipped forces, all kept
    after the commands sent before. *)
Definition sent_clipped {W : Type} (st st' : FControl.sim (W := W)) : Prop :=
  exists sent, snd st' = snd st ++ sent /\ Forall (fun c => clipped (snd c)) sent.

End Bound.

(** ** Concrete collaborators on binary64 numbers *)

Module FToy.

(** A physics server with one joint that stays where it is, whatever it
    is sent: its state is the joint's position and velocity, and the
    inverse kinematics answers with the current position. *)
Definition getNumJoints (w : float * float) : nat := 1.
Definition getJointState (w : float * float) (i : Z) : float * float := w.
Definition torque_control (w : float * float) (i : Z) (force : float) : float * float := w.
Definition stepSimulation (w : float * float) : float * float := w.
Definition calculateInverseKinematics (w : float * float) (i : Z) (target : list float)
  : list float := [fst w].

Definition control (q_desired v_desired : float) (w : float * float) :=
  FControl.control_to_desired_configuration getNumJoints getJointState
    torque_control stepSimulation [q_desired] [v_desired] FControl.eps_default (w, []).

(** Link states as tuples of eight and of seven entries. *)
Definition origin : list float := [0; 0; 0]%float.
Definition getLinkState8 (w : float * float) (i : Z) : list (list float) :=
  [origin; origin; origin; origin; origin; origin; origin; origin].
Definition getLinkState7 (w : float * float) (i : Z) : list (list float) :=
  [origin; origin; origin; origin; origin; origin; origin].

Definition env : EnvRealistic.self :=
  EnvRealistic.Self [0; 0; 0]%float [1; 1; 1]%float 0 0 0.

Definition env_step (getLinkState : float * float -> Z -> list (list float))
    (global_pendulum_joint : option Z) (action : float) (w : float * float) :=
  EnvRealistic.step getNumJoints getJointState torque_control stepSimulation
    calculateInverseKinematics getLinkState global_pendulum_joint env action (w, []).

End FToy.

(** * Properties *)

(** ** Cart-pole sampling *)

Section SamplingFacts.

Context {E G : Type}.
Variable reset : E -> observation * E.
Variable step : E -> Z -> observation * bool * bool * E.
Variable randint : Z -> Z -> G -> Z * G.

Local Abbreviation body := (Sampling.body reset step randint).
Local Abbreviation advance := (Sampling.advance reset step randint).
Local Abbreviation row_of := (Sampling.row_of step randint).
Local Abbreviation before_iteration := (Sampling.before_iteration reset step randint).
Local Abbreviation generate := (Sampling.generate_sample_of_system_dynamics reset step randint).

(** One pass of the loop appends the row of the current state and goes on
    from the next state. *)
Lemma body_continue env g s samples :
  body (env, g, s, samples) =
  Continue (advance (env, g, s), samples ++ [row_of (env, g, s)]).
Proof.
  unfold Sampling.body, Sampling.advance, Sampling.row_of.
  destruct (randint 0 2 g) as [a g1].
  destruct (step env a) as [[[next_s d] t] env1].
  destruct d; [destruct (reset env1) as [s' env2]|]; reflexivity.
Qed.

Lemma loop_rows n : forall env g s samples,
  for_range n body (env, g, s, samples) =
  inl (Nat.iter n advance (env, g, s),
       samples ++ map (fun i => row_of (Nat.iter i advance (env, g, s))) (seq 0 n)).
Proof.
  induction n as [|n IH]; intros env g s samples.
  - cbn. rewrite app_nil_r. reflexivity.
  - cbn [for_range]. rewrite body_continue.
    destruct (advance (env, g, s)) as [[env' g'] s'] eqn:Hadv.
    rewrite IH, Nat.iter_succ_r, Hadv. do 2 f_equal.
    rewrite <- app_assoc. f_equal. cbn [seq map app Nat.iter]. f_equal.
    rewrite <- seq_shift, map_map. apply map_ext. intros i.
    rewrite Nat.iter_succ_r, Hadv. reflexivity.
Qed.

(** The dataframe is, row by row, what each iteration recorded. *)
Lemma generate_rows env g nb_samples :
  fst (fst (generate env g nb_samples)) =
  map (fun i => row_of (before_iteration i env g)) (seq 0 (Z.to_nat nb_samples)).
Proof.
  unfold Sampling.generate_sample_of_system_dynamics, Sampling.before_iteration,
    Sampling.start_of.
  destruct (reset env) as [s env0]. rewrite loop_rows.
  destruct (Nat.iter _ advance _) as [[env' g'] s']. reflexivity.
Qed.

(** The cart-pole sampler returns exactly [nb_samples] rows. *)
Lemma generate_nb_rows env g nb_samples :
  (0 <= nb_samples)%Z ->
  Z.of_nat (length (fst (fst (generate env g nb_samples)))) = nb_samples.
Proof.
  intros Hnb. rewrite generate_rows, length_map, length_seq. lia.
Qed.

(** The pre-step state recorded by an iteration is the loop's current
    [s]. *)
Lemma pre_state_row_of env g s : pre_state (row_of (env, g, s)) = s.
Proof.
  unfold Sampling.row_of. destruct (randint 0 2 g) as [a g1].
  destruct (step env a) as [[[next_s d] t] env1]. destruct s; reflexivity.
Qed.

(** In the cart-pole sampler, the row after a terminating step starts from
    the observation of a fresh [reset] of the stepped environment, and the
    row after any other step starts from that step's [next_s]. *)
Lemma generate_next_pre_state env g nb_samples i :
  (Datatypes.S i < Z.to_nat nb_samples)%nat ->
  let '(env_i, g_i, s_i) := before_iteration i env g in
  let '(a, g') := randint 0 2 g_i in
  let '(next_s, d, _, env') := step env_i a in
  exists r r',
    fst (fst (generate env g nb_samples)) !! i = Some r /\
    fst (fst (generate env g nb_samples)) !! Datatypes.S i = Some r' /\
    r = sample_dict s_i (2 * a - 1)%Z next_s /\
    pre_state r' = (if d then fst (reset env') else next_s) /\
    before_iteration (Datatypes.S i) env g =
      (if d then snd (reset env') else env', g', pre_state r').
Proof.
  intros Hi. rewrite generate_rows.
  assert (Hrow : forall j, (j < Z.to_nat nb_samples)%nat ->
            map (fun i => row_of (before_iteration i env g))
                (seq 0 (Z.to_nat nb_samples)) !! j
            = Some (row_of (before_iteration j env g))).
  { intros j Hj. rewrite list_lookup_fmap, lookup_seq_lt by lia. reflexivity. }
  pose proof (eq_refl : before_iteration (Datatypes.S i) env g
                        = advance (before_iteration i env g)) as Hnext.
  destruct (before_iteration i env g) as [[env_i g_i] s_i] eqn:Hst.
  destruct (randint 0 2 g_i) as [a g'] eqn:Hrand.
  destruct (step env_i a) as [[[next_s d] t] env'] eqn:Hstep.
  exists (row_of (env_i, g_i, s_i)), (row_of (before_iteration (Datatypes.S i) env g)).
  rewrite Hrow by lia. rewrite Hrow by lia. rewrite Hst.
  split; [reflexivity|]. split; [reflexivity|]. split.
  { unfold Sampling.row_of. rewrite Hrand, Hstep. reflexivity. }
  rewrite Hnext. unfold Sampling.advance. rewrite Hrand, Hstep.
  destruct d.
  - destruct (reset env') as [s' env2]. rewrite pre_state_row_of. split; reflexivity.
  - rewrite pre_state_row_of. split; reflexivity.
Qed.

End SamplingFacts.

(** ** The realistic sampler *)

Section RealisticFacts.

Context {E G : Type}.
Variable reset : E -> observation * E.
Variable step : E -> Z -> observation * bool * bool * E.
Variable randint : Z -> Z -> G -> Z * G.

Local Abbreviation body := (Realistic.body reset step randint).
Local Abbreviation generate :=
  (Realistic.generate_sample_of_system_dynamics_realistic reset step randint).

(** Every pass through the loop body ends in its [return]: either the
    indexing of [action_space] raised, or the dataframe of the samples so
    far plus one is handed back. *)
Lemma realistic_body_returns env g s samples :
  exists out, body (env, g, s, samples) = Return out /\
    (fst (fst out) = Raise IndexError \/
     exists r, fst (fst out) = Ok (Some (samples ++ [r])) /\ pre_state r = s).
Proof.
  unfold Realistic.body. destruct (randint 0 2 g) as [k g1].
  destruct (index Realistic.action_space k) as [a|].
  - destruct (step env a) as [[[next_s dead] trunc] env1].
    destruct (if dead || trunc then reset env1 else (next_s, env1)) as [s' env2].
    eexists. split; [reflexivity|]. right. eexists. split; [reflexivity|].
    destruct s; reflexivity.
  - eexists. split; [reflexivity|]. left. reflexivity.
Qed.

Lemma realistic_outcome env g nb_samples :
  fst (fst (generate env g nb_samples)) = Ok None \/
  fst (fst (generate env g nb_samples)) = Raise IndexError \/
  exists r, fst (fst (generate env g nb_samples)) = Ok (Some [r]) /\
            pre_state r = fst (reset env).
Proof.
  unfold Realistic.generate_sample_of_system_dynamics_realistic.
  destruct (reset env) as [s env0]. destruct (Z.to_nat nb_samples) as [|n].
  - left. reflexivity.
  - right. cbn [for_range].
    destruct (realistic_body_returns env0 g s []) as (out & -> & Hout).
    destruct Hout as [Hout | (r & Hout & Hpre)]; [left; exact Hout|].
    right. exists r. split; [exact Hout | exact Hpre].
Qed.

(** C1 (realistic sampler).  Whatever the environment, the generator and
    [nb_samples], the realistic sampler never hands back a dataframe of two
    or more rows: it returns no dataframe at all, or one with exactly one
    row. *)
Theorem realistic_sampler_at_most_one_row env g nb_samples :
  Realistic.nb_rows (generate env g nb_samples) = None \/
  Realistic.nb_rows (generate env g nb_samples) = Some 1%nat.
Proof.
  destruct (realistic_outcome env g nb_samples) as [H | [H | (r & H & _)]];
    destruct (generate env g nb_samples) as [[res env'] g']; cbn in H; subst res;
    [left | left | right]; reflexivity.
Qed.

(** C2 (realistic sampler).  The dataframe of the realistic sampler has no
    row after the first one: the state chosen for the next sample, by
    [reset] or from [next_s], is never recorded. *)
Theorem realistic_sampler_no_second_row env g nb_samples i :
  Realistic.returned_row (generate env g nb_samples) (Datatypes.S i) = None.
Proof.
  destruct (realistic_outcome env g nb_samples) as [H | [H | (r & H & _)]];
    destruct (generate env g nb_samples) as [[res env'] g']; cbn in H; subst res;
    reflexivity.
Qed.

End RealisticFacts.

(** The cart-pole sampler on the toy environment: five samples, the
    episode ending at the third step, the fourth row starting from the
    reset observation. *)
Example toy_generate_five :
  map pre_state
    (fst (fst (Sampling.generate_sample_of_system_dynamics
                 Toy.reset Toy.step Toy.randint 7%nat 0%nat 5)))
  = [Obs 0 0 0 0; Toy.observe 1 0; Toy.observe 2 1; Obs 0 0 0 0; Toy.observe 1 1].
Proof. vm_compute. reflexivity. Qed.

(** The realistic sampler on the toy environment, asked for two samples:
    one row comes back. *)
Example toy_realistic_two_samples :
  fst (fst (Realistic.generate_sample_of_system_dynamics_realistic
              Toy.reset Toy.step Toy.randint 7%nat 0%nat 2))
  = Ok (Some [sample_dict (Obs 0 0 0 0) (-1) (Toy.observe 1 (-1))]).
Proof. vm_compute. reflexivity. Qed.

(** Asked for no sample, it returns [None]. *)
Example toy_realistic_no_sample :
  fst (fst (Realistic.generate_sample_of_system_dynamics_realistic
              Toy.reset Toy.step Toy.randint 7%nat 0%nat 0))
  = Ok None.
Proof. reflexivity. Qed.

(** ** Controller synthesis *)

Lemma Q_rows :
  Lqr.Q = [[125; 0; 0; 0]; [0; 50; 0; 0]; [0; 0; 1200; 0]; [0; 0; 0; 25]].
Proof. reflexivity. Qed.

Lemma R_rows : Lqr.R = [[1.5]].
Proof. reflexivity. Qed.

Lemma Q_symmetric : Lqr.symmetric Lqr.Q.
Proof.
  intros i j. rewrite Q_rows. unfold Lqr.entry.
  destruct i as [|[|[|[|i]]]]; destruct j as [|[|[|[|j]]]]; cbn;
    repeat match goal with
           | |- context [match ?k with O => _ | Datatypes.S _ => _ end] =>
               is_var k; destruct k; cbn
           end; reflexivity.
Qed.

Lemma R_symmetric : Lqr.symmetric Lqr.R.
Proof.
  intros i j. rewrite R_rows. unfold Lqr.entry.
  destruct i as [|i]; destruct j as [|j]; cbn;
    repeat match goal with
           | |- context [match ?k with O => _ | Datatypes.S _ => _ end] =>
               is_var k; destruct k; cbn
           end; reflexivity.
Qed.

Lemma Q_quadratic_form a b c d :
  Lqr.quadratic_form Lqr.Q [a; b; c; d]
  == 125 * (a * a) + 50 * (b * b) + 1200 * (c * c) + 25 * (d * d).
Proof.
  rewrite Q_rows. unfold Lqr.quadratic_form, Np.sum. cbn [map zip_with fold_left].
  ring.
Qed.

Lemma R_quadratic_form a : Lqr.quadratic_form Lqr.R [a] == 1.5 * (a * a).
Proof.
  rewrite R_rows. unfold Lqr.quadratic_form, Np.sum. cbn [map zip_with fold_left].
  ring.
Qed.

Lemma square_nonneg (a : Q) : 0 <= a * a.
Proof. nra. Qed.

Lemma Q_positive_semidefinite : Lqr.positive_semidefinite Lqr.Q.
Proof.
  split; [exact Q_symmetric|]. intros v Hv.
  destruct v as [|a [|b [|c [|d [|? ?]]]]]; try discriminate Hv.
  rewrite Q_quadratic_form.
  pose proof (square_nonneg a). pose proof (square_nonneg b).
  pose proof (square_nonneg c). pose proof (square_nonneg d). lra.
Qed.

Lemma R_positive_semidefinite : Lqr.positive_semidefinite Lqr.R.
Proof.
  split; [exact R_symmetric|]. intros v Hv.
  destruct v as [|a [|? ?]]; try discriminate Hv.
  rewrite R_quadratic_form. pose proof (square_nonneg a). lra.
Qed.

Lemma arguments_conform : Lqr.conform Lqr.A Lqr.B Lqr.Q Lqr.R.
Proof.
  unfold Lqr.conform, Lqr.rectangular. rewrite Q_rows, R_rows.
  repeat split; repeat constructor.
Qed.

Section SynthesisFacts.

Context {Eig : Type}.
Variable dlqr : Lqr.matrix -> Lqr.matrix -> Lqr.matrix -> Lqr.matrix
                -> Lqr.matrix * Lqr.matrix * Eig.

(** What the solver promises about the shape of the gain: for conforming
    arguments with at least one input column, [K] has one row for each
    column of [B] and one column for each row of [A]. *)
Hypothesis dlqr_gain_shape : forall A B Q R,
  Lqr.conform A B Q R -> (0 < snd (Lqr.shape B))%nat ->
  Lqr.shape (fst (fst (dlqr A B Q R))) = (snd (Lqr.shape B), fst (Lqr.shape A)).

(** C7.  The linear-quadratic problem of the synthesis cell is well
    posed: [A] is 4 by 4, [B] is 4 by 1, [Q] is 4 by 4 and [R] is 1 by 1,
    so the arguments of [dlqr] conform and the gain [K] is 1 by 4; and
    [Q = diag(125, 50, 1200, 25)] and [R = diag(1.5)] are symmetric with a
    non-negative quadratic form. *)
Theorem lqr_problem_well_posed (ns : Lqr.namespace) :
  Lqr.shape Lqr.A = (4, 4)%nat /\ Lqr.shape Lqr.B = (4, 1)%nat /\
  Lqr.shape Lqr.Q = (4, 4)%nat /\ Lqr.shape Lqr.R = (1, 1)%nat /\
  Lqr.conform Lqr.A Lqr.B Lqr.Q Lqr.R /\
  Lqr.shape (Lqr.synthesis_cell dlqr ns) = (1, 4)%nat /\
  Lqr.Q = Lqr.np_diag [125; 50; 1200; 25] /\ Lqr.R = Lqr.np_diag [1.5] /\
  Lqr.positive_semidefinite Lqr.Q /\ Lqr.positive_semidefinite Lqr.R.
Proof.
  repeat split; try reflexivity;
    try apply arguments_conform; try apply Q_positive_semidefinite;
    try apply R_positive_semidefinite.
  unfold Lqr.synthesis_cell, Lqr.dlqr_arguments.
  pose proof (dlqr_gain_shape Lqr.A Lqr.B Lqr.Q Lqr.R arguments_conform) as HK.
  destruct (dlqr Lqr.A Lqr.B Lqr.Q Lqr.R) as [[K S'] E']. apply HK. cbn. lia.
Qed.

End SynthesisFacts.

Lemma toy_dlqr_gain_shape A B Q R :
  Lqr.conform A B Q R -> (0 < snd (Lqr.shape B))%nat ->
  Lqr.shape (fst (fst (Toy.dlqr A B Q R))) = (snd (Lqr.shape B), fst (Lqr.shape A)).
Proof.
  intros _ Hm. unfold Toy.dlqr. cbn [fst]. unfold Lqr.shape at 1.
  rewrite length_replicate. f_equal.
  destruct (snd (Lqr.shape B)); [lia|]. cbn. apply length_replicate.
Qed.

Lemma lqr_problem_well_posed_witness :
  Lqr.shape (Lqr.synthesis_cell Toy.dlqr (Lqr.Namespace [] [] [] [])) = (1, 4)%nat.
Proof.
  apply (lqr_problem_well_posed Toy.dlqr toy_dlqr_gain_shape (Lqr.Namespace [] [] [] [])).
Defined.

Section DataIndependence.

Context {Eig : Type}.
Variable dlqr : Lqr.matrix -> Lqr.matrix -> Lqr.matrix -> Lqr.matrix
                -> Lqr.matrix * Lqr.matrix * Eig.

(** Two runs of the notebook, each with its own environment, generator
    and regression routine. *)
Context {Env1 G1 Env2 G2 : Type}.
Variable reset1 : Env1 -> observation * Env1.
Variable step1 : Env1 -> Z -> observation * bool * bool * Env1.
Variable randint1 : Z -> Z -> G1 -> Z * G1.
Variable OLS_fit1 : list Q -> list (list Q) -> list Q * Q.
Variable reset2 : Env2 -> observation * Env2.
Variable step2 : Env2 -> Z -> observation * bool * bool * Env2.
Variable randint2 : Z -> Z -> G2 -> Z * G2.
Variable OLS_fit2 : list Q -> list (list Q) -> list Q * Q.

(** C3.  The arguments of the [dlqr] call are the constants [A], [B], [Q]
    and [R] of the cell whatever the namespace holds, so two namespaces
    with arbitrary samples and fitted coefficients give the same arguments
    and the same gain; in particular two whole runs of the notebook on
    different environments, random draws, sample counts and regression
    routines end with the same [K]. *)
Theorem gain_independent_of_data (ns1 ns2 : Lqr.namespace)
    (env1 : Env1) (g1 : G1) (nb1 : Z) (env2 : Env2) (g2 : G2) (nb2 : Z) :
  Lqr.dlqr_arguments ns1 = (Lqr.A, Lqr.B, Lqr.Q, Lqr.R) /\
  Lqr.dlqr_arguments ns1 = Lqr.dlqr_arguments ns2 /\
  Lqr.synthesis_cell dlqr ns1 = Lqr.synthesis_cell dlqr ns2 /\
  Lqr.synthesis_cell dlqr ns1 = fst (fst (dlqr Lqr.A Lqr.B Lqr.Q Lqr.R)) /\
  Lqr.notebook_gain dlqr reset1 step1 randint1 OLS_fit1 env1 g1 nb1 =
  Lqr.notebook_gain dlqr reset2 step2 randint2 OLS_fit2 env2 g2 nb2.
Proof.
  unfold Lqr.notebook_gain, Lqr.synthesis_cell, Lqr.dlqr_arguments.
  destruct (dlqr Lqr.A Lqr.B Lqr.Q Lqr.R) as [[K S'] E'].
  repeat split; reflexivity.
Qed.

End DataIndependence.

(** ** The realistic environment *)

Lemma ltb_lt (a b : Q) : ltb a b = true <-> a < b.
Proof.
  unfold ltb. rewrite negb_true_iff, <- not_true_iff_false, Qle_bool_iff.
  split; [apply Qnot_le_lt | apply Qlt_not_le].
Qed.

Section EnvRealisticFacts.

Context {W : Type}.
Variable getNumJoints : W -> nat.
Variable getJointState : W -> Z -> float * float.
Variable torque_control : W -> Z -> float -> W.
Variable stepSimulation : W -> W.
Variable calculateInverseKinematics : W -> Z -> list float -> list float.
Variable getLinkState : W -> Z -> list (list float).

(** [get_state] raises on every call: the unpacking fails unless the link
    state has seven entries, and with seven the subtraction of the two
    tuples does, if nothing before it did. *)
Lemma get_state_raises (env : EnvRealistic.self) (w : W) :
  exists e, EnvRealistic.get_state getJointState getLinkState env w = Raise e.
Proof.
  unfold EnvRealistic.get_state.
  destruct (getLinkState w (EnvRealistic.pendulum_link env))
    as [|position [|e1 [|e2 [|e3 [|e4 [|e5 [|velocity [|e7 more]]]]]]]];
    try (eexists; reflexivity).
  destruct (FNp.sub position (EnvRealistic.initial_pos env)) as [d|e];
    [|eexists; reflexivity].
  cbn [mbind result_bind].
  destruct (FNp.div d (EnvRealistic.line_vector env)) as [q|e];
    eexists; reflexivity.
Qed.

(** C4.  [step] returns no flags at all.  Whatever the action, the state
    of [self], the physics server and the value, if any, of the global
    name [pendulum_joint], the call ends in an exception and the step
    counter of [self] is what it was before the call; with the global
    name unbound, as the notebook leaves it, the exception is [NameError]
    and the server has not been touched. *)
Theorem step_never_returns (global_pendulum_joint : option Z)
    (env : EnvRealistic.self) (action : float) (st : FControl.sim) :
  (exists e st',
     EnvRealistic.step getNumJoints getJointState torque_control stepSimulation
       calculateInverseKinematics getLinkState global_pendulum_joint env action st
     = (Raise e, env, st')) /\
  EnvRealistic.step getNumJoints getJointState torque_control stepSimulation
    calculateInverseKinematics getLinkState None env action st
  = (Raise NameError, env, st).
Proof.
  split; [|reflexivity].
  unfold EnvRealistic.step.
  destruct global_pendulum_joint as [eff_idx|]; [|eexists _, _; reflexivity].
  destruct (FControl.move_end_effector_along_trajectory _ _ _ _ _ _ _ st)
    as [[u|e] st']; [|eexists _, _; reflexivity].
  destruct (get_state_raises env (fst st')) as [e ->].
  eexists _, _; reflexivity.
Qed.

End EnvRealisticFacts.

(** With the global name unbound the first step raises [NameError]. *)
Example toy_step_unbound_global :
  FToy.env_step FToy.getLinkState8 None 1 (0, 0)%float
  = (Raise NameError, FToy.env, ((0, 0)%float, [])).
Proof. reflexivity. Qed.

(** With the name bound and the eight entries that the link state has when
    the velocities are asked for, the unpacking into seven names raises
    [ValueError]. *)
Example toy_step_eight_entries :
  FToy.env_step FToy.getLinkState8 (Some 0%Z) 1 (0, 0)%float
  = (Raise ValueError, FToy.env, ((0, 0)%float, [])).
Proof. vm_compute. reflexivity. Qed.

(** With seven entries the difference of the two tuples raises
    [TypeError]. *)
Example toy_step_seven_entries :
  FToy.env_step FToy.getLinkState7 (Some 0%Z) 1 (0, 0)%float
  = (Raise TypeError, FToy.env, ((0, 0)%float, [])).
Proof. vm_compute. reflexivity. Qed.

(** ** The small-angle fit *)

Lemma small_angle_spec (r : row) :
  Fitting.small_angle r = true <-> Qabs (theta r) < 0.05.
Proof. apply ltb_lt. Qed.

Lemma small_angle_samples_app (l1 l2 : list row) :
  Fitting.small_angle_samples (l1 ++ l2) =
  Fitting.small_angle_samples l1 ++ Fitting.small_angle_samples l2.
Proof. apply List.filter_app. Qed.

Lemma small_angle_samples_none (l : list row) :
  Forall (fun r => ~ Qabs (theta r) < 0.05) l -> Fitting.small_angle_samples l = [].
Proof.
  induction 1 as [|r l Hr _ IH]; [reflexivity|].
  cbn. destruct (Fitting.small_angle r) eqn:Hsmall; [|exact IH].
  apply small_angle_spec in Hsmall. contradiction.
Qed.

Section FittingFacts.

Variable OLS_fit : list Q -> list (list Q) -> list Q * Q.

(** The cell reads [samples] only through [small_angle_samples]. *)
Lemma fit_cell_small_angle (samples samples' : list row) :
  Fitting.small_angle_samples samples = Fitting.small_angle_samples samples' ->
  Fitting.fit_cell OLS_fit samples = Fitting.fit_cell OLS_fit samples'.
Proof.
  intros Heq. unfold Fitting.fit_cell, Fitting.fit, Fitting.predictors.
  rewrite Heq. reflexivity.
Qed.

(** What the regression of the outcome [o] is given: the column [o] and
    the five predictors of the small-angle rows, in the order of the
    dataframe. *)
Lemma fit_regression_data (samples : list row) (o : Fitting.column) :
  Fitting.fit OLS_fit samples o =
  OLS_fit (map (Fitting.cell o) (Fitting.small_angle_samples samples))
          (map (fun r => [x r; x_dot r; theta r; theta_dot r; inject_Z (input r)])
               (Fitting.small_angle_samples samples)).
Proof. reflexivity. Qed.

(** C5.  The regression data are exactly the small-angle rows.  A row of
    the samples is among the filtered rows exactly when its recorded angle
    satisfies [|theta| < 0.05]; each of the three regressions is given
    the outcome column and the five predictor columns of the filtered
    rows, all of them, in their order, and nothing else; and rows outside
    the neighbourhood, wherever they sit in the dataframe, change neither
    the filtered rows nor anything the cell computes, whatever the
    regression routine. *)
Theorem fit_uses_exactly_small_angle_rows (before extra after : list row) :
  Forall (fun r => ~ Qabs (theta r) < 0.05) extra ->
  let samples := before ++ extra ++ after in
  let small := Fitting.small_angle_samples samples in
  let design :=
    map (fun r => [x r; x_dot r; theta r; theta_dot r; inject_Z (input r)]) small in
  (forall r, In r small <-> In r samples /\ Qabs (theta r) < 0.05) /\
  small = Fitting.small_angle_samples (before ++ after) /\
  (forall o, Fitting.fit OLS_fit samples o = OLS_fit (map (Fitting.cell o) small) design) /\
  Fitting.fit_cell OLS_fit samples =
    [("evolution_x_dot"%string, OLS_fit (map evolution_x_dot small) design);
     ("evolution_theta_dot"%string, OLS_fit (map evolution_theta_dot small) design);
     ("evolution_x"%string, OLS_fit (map evolution_x small) design)] /\
  Fitting.fit_cell OLS_fit samples = Fitting.fit_cell OLS_fit (before ++ after).
Proof.
  intros Hextra samples small design.
  assert (Hsame : small = Fitting.small_angle_samples (before ++ after)).
  { subst small samples.
    rewrite !small_angle_samples_app, (small_angle_samples_none extra Hextra).
    reflexivity. }
  split; [|split; [exact Hsame|split; [|split]]].
  - intros r. subst small. unfold Fitting.small_angle_samples.
    rewrite List.filter_In, small_angle_spec. reflexivity.
  - intros o. apply fit_regression_data.
  - reflexivity.
  - apply fit_cell_small_angle, Hsame.
Qed.

(** The regression of an outcome reads that outcome's column and the
    predictors only: two dataframes that agree there give it the same
    data. *)
Lemma agree_regression_data (o : Fitting.column) (samples samples' : list row) :
  Forall2 (Spec.agree_on o) samples samples' ->
  Fitting.series o (Fitting.small_angle_samples samples) =
    Fitting.series o (Fitting.small_angle_samples samples') /\
  Fitting.predictors samples = Fitting.predictors samples'.
Proof.
  unfold Fitting.predictors, Fitting.frame, Fitting.series.
  induction 1 as [|r r' l l' Hr _ [IHy IHx]]; [split; reflexivity|].
  unfold Spec.agree_on in Hr. cbn in Hr. injection Hr as Ho Hx Hxd Hth Hthd Hin.
  assert (Hsmall : Fitting.small_angle r = Fitting.small_angle r')
    by (unfold Fitting.small_angle; rewrite Hth; reflexivity).
  unfold Fitting.small_angle_samples in *. cbn [List.filter]. rewrite Hsmall.
  destruct (Fitting.small_angle r'); [|split; assumption].
  cbn [map Fitting.predictor_columns Fitting.cell].
  rewrite Ho, Hx, Hxd, Hth, Hthd, Hin. split; f_equal; assumption.
Qed.

End FittingFacts.

Lemma fit_uses_exactly_small_angle_rows_witness :
  Fitting.small_angle_samples ([Toy.near1] ++ [Toy.far] ++ [Toy.near2]) =
    Fitting.small_angle_samples ([Toy.near1] ++ [Toy.near2]) /\
  Fitting.fit Toy.OLS_echo ([Toy.near1] ++ [Toy.far] ++ [Toy.near2])
    Fitting.c_evolution_x =
    Toy.OLS_echo
      (map (Fitting.cell Fitting.c_evolution_x)
         (Fitting.small_angle_samples ([Toy.near1] ++ [Toy.far] ++ [Toy.near2])))
      (map (fun r => [x r; x_dot r; theta r; theta_dot r; inject_Z (input r)])
         (Fitting.small_angle_samples ([Toy.near1] ++ [Toy.far] ++ [Toy.near2]))).
Proof.
  assert (Hfar : Forall (fun r => ~ Qabs (theta r) < 0.05) [Toy.far]).
  { repeat constructor. intros H. vm_compute in H. discriminate H. }
  pose proof (fit_uses_exactly_small_angle_rows Toy.OLS_echo
                [Toy.near1] [Toy.far] [Toy.near2] Hfar) as (_ & Hsame & Hfit & _).
  split; [exact Hsame | exact (Hfit Fitting.c_evolution_x)].
Defined.

(** With a routine that hands back what it is given, the three fits show
    their data: the outcome values of the two small-angle rows, then
    their five predictors, and two rows counted; nothing of the row with
    the large angle. *)
Example toy_fit_cell :
  Fitting.fit_cell Toy.OLS_echo [Toy.near1; Toy.far; Toy.near2]
  = [("evolution_x_dot"%string,
      ([5; 11; 1; 2; 1 # 100; 3; 1; 7; 8; -2 # 100; 9; -1], 2));
     ("evolution_theta_dot"%string,
      ([6; 12; 1; 2; 1 # 100; 3; 1; 7; 8; -2 # 100; 9; -1], 2));
     ("evolution_x"%string,
      ([4; 10; 1; 2; 1 # 100; 3; 1; 7; 8; -2 # 100; 9; -1], 2))].
Proof. reflexivity. Qed.

(** ** PD torque control *)

Lemma for_range_invariant {S R : Type} (body : S -> flow S R)
    (I : S -> Prop) (J : R -> Prop) :
  (forall st, I st ->
     match body st with Continue st' => I st' | Return r => J r end) ->
  forall n st, I st ->
    match for_range n body st with inl st' => I st' | inr r => J r end.
Proof.
  intros Hbody n. induction n as [|n IH]; intros st Hst; [exact Hst|].
  cbn [for_range]. specialize (Hbody st Hst).
  destruct (body st) as [st'|r]; [apply IH, Hbody | exact Hbody].
Qed.

(** What [np.clip(u, -50, 50)] is: [u] itself when it is a not-a-number
    or strictly between the bounds, else the bound it passed. *)
Lemma clip1_clipped (u : float) : Bound.clipped (FNp.clip1 (-50) 50 u).
Proof.
  unfold FNp.clip1, FNp.clip_max, Bound.clipped.
  destruct (PrimFloat.is_nan u) eqn:Hnan.
  - unfold FNp.clip_min. rewrite Hnan. left. exact Hnan.
  - destruct (PrimFloat.ltb (-50) u) eqn:Hlo.
    + unfold FNp.clip_min. rewrite Hnan.
      destruct (PrimFloat.ltb u 50) eqn:Hhi.
      * right. right. right. split; assumption.
      * right. right. left. reflexivity.
    + right. left. reflexivity.
Qed.

(** The clipped number is a not-a-number only when the PD output is. *)
Lemma clip1_nan (u : float) :
  PrimFloat.is_nan (FNp.clip1 (-50) 50 u) = PrimFloat.is_nan u.
Proof.
  unfold FNp.clip1, FNp.clip_max.
  destruct (PrimFloat.is_nan u) eqn:Hnan.
  - unfold FNp.clip_min. rewrite Hnan. exact Hnan.
  - destruct (PrimFloat.ltb (-50) u) eqn:Hlo.
    + unfold FNp.clip_min. rewrite Hnan.
      destruct (PrimFloat.ltb u 50); [exact Hnan | reflexivity].
    + reflexivity.
Qed.

Lemma clip_clipped (t : list float) : Forall Bound.clipped (FNp.clip t (-50) 50).
Proof. unfold FNp.clip. apply Forall_map, Forall_forall. intros u _. apply clip1_clipped. Qed.

Lemma sent_clipped_refl {W : Type} (st : FControl.sim (W := W)) : Bound.sent_clipped st st.
Proof. exists []. split; [symmetry; apply app_nil_r | constructor]. Qed.

Lemma sent_clipped_trans {W : Type} (st1 st2 st3 : FControl.sim (W := W)) :
  Bound.sent_clipped st1 st2 -> Bound.sent_clipped st2 st3 -> Bound.sent_clipped st1 st3.
Proof.
  intros (s12 & H12 & B12) (s23 & H23 & B23). exists (s12 ++ s23). split.
  - rewrite H23, H12, app_assoc. reflexivity.
  - apply Forall_app. split; assumption.
Qed.

Lemma head_In {A : Type} (l : list A) (a : A) : head l = Some a -> In a l.
Proof. destruct l as [|b l]; [discriminate|]. intros [= ->]. left. reflexivity. Qed.

Section FControlFacts.

Context {W : Type}.
Variable getNumJoints : W -> nat.
Variable getJointState : W -> Z -> float * float.
Variable torque_control : W -> Z -> float -> W.
Variable stepSimulation : W -> W.
Variable calculateInverseKinematics : W -> Z -> list float -> list float.

(** The inner loop sends entries of [tau] only. *)
Lemma apply_torques_clipped (tau : list float) (todo : list nat) :
  Forall Bound.clipped tau ->
  forall st, Bound.sent_clipped st (snd (FControl.apply_torques torque_control tau todo st)).
Proof.
  intros Htau. induction todo as [|i todo IH]; intros st; [apply sent_clipped_refl|].
  cbn [FControl.apply_torques]. destruct (tau !! i) as [force|] eqn:Hi;
    [|apply sent_clipped_refl].
  eapply sent_clipped_trans; [|apply IH].
  exists [(Z.of_nat i, force)]. split; [reflexivity|].
  constructor; [|constructor]. cbn [snd].
  rewrite Forall_forall in Htau. apply Htau.
  eapply list_elem_of_lookup_2, Hi.
Qed.

Lemma control_body_clipped q_desired v_desired eps nq Kp Kd (st0 st : FControl.sim) :
  Bound.sent_clipped st0 st ->
  match FControl.control_body getJointState torque_control stepSimulation
          q_desired v_desired eps nq Kp Kd st with
  | Continue st' => Bound.sent_clipped st0 st'
  | Return out => Bound.sent_clipped st0 (snd out)
  end.
Proof.
  intros Hst. unfold FControl.control_body.
  destruct (match FControl.within _ q_desired eps with
            | Ok true => FControl.within _ v_desired eps
            | Ok false => Ok false
            | Raise e => Raise e
            end) as [[|]|e]; try exact Hst.
  destruct (FControl.pd_control _ _ _ _ _ _) as [t|e]; [|exact Hst].
  pose proof (apply_torques_clipped (FNp.clip t (-50) 50) (seq 0 nq) (clip_clipped t) st)
    as Hsent.
  destruct (FControl.apply_torques _ _ _ st) as [[u|e] st'];
    cbn [snd] in Hsent |- *; eapply sent_clipped_trans; eauto.
Qed.

(** Every command of one call of [control_to_desired_configuration] is
    clipped. *)
Lemma control_sent_clipped (q_desired v_desired : list float) (eps : float)
    (st : FControl.sim) :
  Bound.sent_clipped st
    (snd (FControl.control_to_desired_configuration getNumJoints getJointState
            torque_control stepSimulation q_desired v_desired eps st)).
Proof.
  unfold FControl.control_to_desired_configuration.
  match goal with
  | |- context [for_range ?n ?b st] =>
      pose proof (for_range_invariant b (Bound.sent_clipped st)
                    (fun out => Bound.sent_clipped st (snd out))
                    (fun s => control_body_clipped _ _ _ _ _ _ st s)
                    n st (sent_clipped_refl st)) as Hloop;
      destruct (for_range n b st) as [st'|out]
  end; exact Hloop.
Qed.

(** C9, as amended.  Every force that
    [control_to_desired_configuration] passes to the torque-control call
    is an entry of [np.clip(tau, -50, 50)]: whatever the desired
    configuration and velocities, the tolerance and the state of the
    server, the commands recorded after the call are those recorded
    before it followed by commands whose force is -50, 50, a number
    strictly between them, or a not-a-number. *)
Theorem torque_commands_clipped (q_desired v_desired : list float) (eps : float)
    (st : FControl.sim) :
  exists sent,
    snd (snd (FControl.control_to_desired_configuration getNumJoints getJointState
                torque_control stepSimulation q_desired v_desired eps st))
      = snd st ++ sent /\
    Forall (fun c =>
              PrimFloat.is_nan (snd c) = true \/
              snd c = (-50)%float \/ snd c = 50%float \/
              (PrimFloat.ltb (-50) (snd c) = true /\ PrimFloat.ltb (snd c) 50 = true))
           sent.
Proof. apply control_sent_clipped. Qed.

End FControlFacts.

(** C9, as stated, fails on binary64 numbers.  On a server whose joint
    reads a not-a-number position, and on one whose finite readings and
    targets near 1e308 make the PD sum overflow to infinity minus
    infinity, the call sends a force that is not of absolute value at most
    50: a not-a-number, which [np.clip] lets through and for which the
    test [< eps] is false. *)
Lemma torque_bound_fails_on_not_a_number :
  (exists c, In c (snd (snd (FToy.control 0 0 (nan, 0%float)))) /\
             Bound.within_50 (snd c) = false) /\
  (exists c, In c (snd (snd (FToy.control (-1e308) 1e308 (1e308, -1e308)%float))) /\
             Bound.within_50 (snd c) = false).
Proof.
  split; exists (0%Z, nan); (split; [apply head_In; vm_compute; reflexivity | reflexivity]).
Qed.

(** On the toy server with a target far from the joint's angle, each of the
    thousand passes sends the clipped force 50. *)
Example toy_torques_clipped :
  snd (snd (FToy.control 100 0 (0, 0)%float)) = repeat (0%Z, 50%float) 1000.
Proof. vm_compute. reflexivity. Qed.


(** ** Editing the URDF file *)

Lemma lstrip_only_blank (s : string) : Spec.only_blank s = true -> Urdf.lstrip s = EmptyString.
Proof.
  induction s as [|c s IH]; [reflexivity|]. cbn [Spec.only_blank Urdf.lstrip]. intros H.
  apply andb_true_iff in H as [-> Hs]. apply IH, Hs.
Qed.

Lemma strip_only_blank (s : string) : Spec.only_blank s = true -> Urdf.strip s = EmptyString.
Proof. intros H. unfold Urdf.strip. rewrite (lstrip_only_blank s H). reflexivity. Qed.

Lemma only_blank_snoc (s : string) (c : Ascii.ascii) :
  Spec.only_blank (s +:+ String c EmptyString) = Spec.only_blank s && Urdf.isspace c.
Proof.
  induction s as [|c' s IH].
  - change (Urdf.isspace c && true = Urdf.isspace c). apply andb_true_r.
  - change (Urdf.isspace c' && Spec.only_blank (s +:+ String c EmptyString)
            = Urdf.isspace c' && Spec.only_blank s && Urdf.isspace c).
    rewrite IH, andb_assoc. reflexivity.
Qed.

Lemma readlines_from_only_blank (text : string) : forall line,
  Spec.only_blank line = true -> Spec.only_blank text = true ->
  Forall (fun l => Spec.only_blank l = true) (Urdf.readlines_from line text).
Proof.
  induction text as [|c text IH]; intros line Hline Htext; cbn [Urdf.readlines_from].
  - destruct (decide (line = EmptyString)); repeat constructor. exact Hline.
  - cbn [Spec.only_blank] in Htext. apply andb_true_iff in Htext as [Hc Htext].
    assert (Hsnoc : Spec.only_blank (line +:+ String c EmptyString) = true)
      by (rewrite only_blank_snoc, Hline, Hc; reflexivity).
    destruct (Ascii.eqb c Urdf.newline).
    + constructor; [exact Hsnoc | apply IH; [reflexivity | exact Htext]].
    + apply IH; assumption.
Qed.

Lemma pop_blank_lines_all (passes : nat) : forall urdf_data,
  Forall (fun l => Spec.only_blank l = true) urdf_data ->
  (length urdf_data <= passes)%nat ->
  Urdf.pop_blank_lines passes urdf_data = [].
Proof.
  induction passes as [|passes IH]; intros urdf_data Hblank Hlen.
  - destruct urdf_data; [reflexivity | cbn in Hlen; lia].
  - cbn [Urdf.pop_blank_lines]. destruct (last urdf_data) as [l|] eqn:Hlast.
    + apply last_Some in Hlast as [front ->].
      apply Forall_app in Hblank as [Hfront Hl]. inversion Hl as [|? ? Hl1 _]; subst.
      rewrite (strip_only_blank l Hl1), decide_True by reflexivity.
      rewrite removelast_last. apply IH; [exact Hfront|].
      rewrite length_app in Hlen. cbn in Hlen. lia.
    + destruct urdf_data as [|l rest]; [reflexivity|].
      exfalso. destruct (last_is_Some (l :: rest)) as [_ H].
      destruct H as [? H]; [discriminate|]. congruence.
Qed.


(** ** Texts and lines *)

Lemma string_app_nil_r (s : string) : s +:+ EmptyString = s.
Proof.
  induction s as [|c s IH]; [reflexivity|].
  change (String c (s +:+ EmptyString) = String c s). rewrite IH. reflexivity.
Qed.

Lemma string_app_assoc (s t u : string) : (s +:+ t) +:+ u = s +:+ t +:+ u.
Proof.
  induction s as [|c s IH]; [reflexivity|].
  change (String c ((s +:+ t) +:+ u) = String c (s +:+ t +:+ u)). rewrite IH. reflexivity.
Qed.

Lemma concat_cons (l : string) (ls : list string) :
  String.concat EmptyString (l :: ls) = l +:+ String.concat EmptyString ls.
Proof. destruct ls; [symmetry; apply string_app_nil_r | reflexivity]. Qed.

Lemma concat_app (ls1 ls2 : list string) :
  String.concat EmptyString (ls1 ++ ls2) =
  String.concat EmptyString ls1 +:+ String.concat EmptyString ls2.
Proof.
  induction ls1 as [|l ls1 IH]; [reflexivity|].
  change ((l :: ls1) ++ ls2) with (l :: (ls1 ++ ls2)).
  rewrite !concat_cons, IH, string_app_assoc. reflexivity.
Qed.

(** Reading the lines loses nothing: joined again they are the text. *)
Lemma concat_readlines_from (text : string) : forall line,
  String.concat EmptyString (Urdf.readlines_from line text) = line +:+ text.
Proof.
  induction text as [|c text IH]; intros line; cbn [Urdf.readlines_from].
  - destruct (decide (line = EmptyString)) as [->|]; [reflexivity|].
    symmetry. apply string_app_nil_r.
  - destruct (Ascii.eqb c Urdf.newline).
    + rewrite concat_cons, IH, string_app_assoc. reflexivity.
    + rewrite IH, string_app_assoc. reflexivity.
Qed.

Lemma concat_readlines (text : string) :
  String.concat EmptyString (Urdf.readlines text) = text.
Proof. apply concat_readlines_from. Qed.

Lemma only_blank_app (s t : string) :
  Spec.only_blank (s +:+ t) = Spec.only_blank s && Spec.only_blank t.
Proof.
  induction s as [|c s IH]; [reflexivity|].
  change (Urdf.isspace c && Spec.only_blank (s +:+ t)
          = Urdf.isspace c && Spec.only_blank s && Spec.only_blank t).
  rewrite IH, andb_assoc. reflexivity.
Qed.

Lemma only_blank_concat (ls : list string) :
  Spec.only_blank (String.concat EmptyString ls) = forallb Spec.only_blank ls.
Proof.
  induction ls as [|l ls IH]; [reflexivity|].
  rewrite concat_cons, only_blank_app, IH. reflexivity.
Qed.

Lemma only_blank_rev_app (s acc : string) :
  Spec.only_blank (String.rev_app s acc) = Spec.only_blank s && Spec.only_blank acc.
Proof.
  revert acc. induction s as [|c s IH]; intros acc; [reflexivity|].
  cbn [String.rev_app Spec.only_blank]. rewrite IH. cbn [Spec.only_blank].
  destruct (Urdf.isspace c), (Spec.only_blank s), (Spec.only_blank acc); reflexivity.
Qed.

Lemma rev_app_empty (s acc : string) :
  String.rev_app s acc = EmptyString -> s = EmptyString /\ acc = EmptyString.
Proof.
  revert acc. induction s as [|c s IH]; intros acc H; [split; [reflexivity | exact H]|].
  cbn [String.rev_app] in H. apply IH in H as [_ H]. discriminate H.
Qed.

Lemma lstrip_empty (s : string) : Urdf.lstrip s = EmptyString -> Spec.only_blank s = true.
Proof.
  induction s as [|c s IH]; [reflexivity|]. cbn [Urdf.lstrip Spec.only_blank].
  destruct (Urdf.isspace c); [exact IH | discriminate].
Qed.

Lemma lstrip_blank (s : string) :
  Spec.only_blank (Urdf.lstrip s) = true -> Spec.only_blank s = true.
Proof.
  induction s as [|c s IH]; [reflexivity|]. cbn [Urdf.lstrip].
  destruct (Urdf.isspace c) eqn:Hc.
  - intros H. cbn [Spec.only_blank]. rewrite Hc, (IH H). reflexivity.
  - cbn [Spec.only_blank]. rewrite Hc. discriminate.
Qed.

(** A line strips to nothing exactly when it is made of whitespace. *)
Lemma strip_empty_iff (l : string) :
  Urdf.strip l = EmptyString <-> Spec.only_blank l = true.
Proof.
  split; [|apply strip_only_blank].
  unfold Urdf.strip, Urdf.rstrip, String.rev. intros H.
  apply rev_app_empty in H as [H _]. apply lstrip_empty in H.
  rewrite only_blank_rev_app, andb_true_r in H. apply lstrip_blank, H.
Qed.

(** What the [while] loop does: it drops a run of blank lines from the
    end, and stops at a line that is not blank or at the empty list. *)
Lemma pop_blank_lines_split (passes : nat) : forall urdf_data,
  (length urdf_data <= passes)%nat ->
  exists dropped,
    urdf_data = Urdf.pop_blank_lines passes urdf_data ++ dropped /\
    forallb Spec.only_blank dropped = true /\
    (forall l, last (Urdf.pop_blank_lines passes urdf_data) = Some l ->
               Spec.only_blank l = false).
Proof.
  induction passes as [|passes IH]; intros urdf_data Hlen.
  - destruct urdf_data; [|cbn in Hlen; lia]. exists []. repeat split. discriminate.
  - cbn [Urdf.pop_blank_lines]. destruct (last urdf_data) as [l|] eqn:Hlast.
    + destruct (decide (Urdf.strip l = EmptyString)) as [Hblank|Hfull].
      * apply last_Some in Hlast as [front ->]. rewrite removelast_last.
        rewrite length_app in Hlen. cbn in Hlen.
        destruct (IH front ltac:(lia)) as (dropped & Hsplit & Hdropped & Hstop).
        exists (dropped ++ [l]). split; [|split; [|exact Hstop]].
        -- rewrite app_assoc, <- Hsplit. reflexivity.
        -- rewrite forallb_app, Hdropped. cbn. apply strip_empty_iff in Hblank.
           rewrite Hblank. reflexivity.
      * exists []. rewrite app_nil_r. repeat split.
        intros l' Hl'. rewrite Hlast in Hl'. injection Hl' as <-.
        destruct (Spec.only_blank l) eqn:Hb; [|reflexivity].
        apply strip_empty_iff in Hb. contradiction.
    + exists []. rewrite app_nil_r. repeat split.
      intros l Hl. rewrite Hlast in Hl. discriminate Hl.
Qed.


(** ** Universal newlines *)

(** Translating the newlines keeps whitespace whitespace and anything else
    what it is. *)
Lemma only_blank_universal_newlines_step (s : string) :
  Spec.only_blank (Urdf.universal_newlines s) = Spec.only_blank s /\
  (forall c, Spec.only_blank (Urdf.universal_newlines (String c s))
             = Spec.only_blank (String c s)).
Proof.
  induction s as [|a s [IH1 IH2]].
  - split; [reflexivity|]. intros c. cbn [Urdf.universal_newlines].
    destruct (Ascii.eqb c Urdf.carriage_return) eqn:Hc; [|reflexivity].
    apply Ascii.eqb_eq in Hc. subst c. reflexivity.
  - split; [apply IH2|]. intros c.
    change (Urdf.universal_newlines (String c (String a s)))
      with (if Ascii.eqb c Urdf.carriage_return
            then if Ascii.eqb a Urdf.newline
                 then String Urdf.newline (Urdf.universal_newlines s)
                 else String Urdf.newline (Urdf.universal_newlines (String a s))
            else String c (Urdf.universal_newlines (String a s))).
    destruct (Ascii.eqb c Urdf.carriage_return) eqn:Hc.
    + apply Ascii.eqb_eq in Hc. subst c.
      destruct (Ascii.eqb a Urdf.newline) eqn:Ha.
      * apply Ascii.eqb_eq in Ha. subst a.
        cbn [Spec.only_blank]. rewrite IH1. reflexivity.
      * change (Spec.only_blank (String Urdf.newline (Urdf.universal_newlines (String a s))))
          with (Urdf.isspace Urdf.newline
                && Spec.only_blank (Urdf.universal_newlines (String a s))).
        rewrite (IH2 a). reflexivity.
    + change (Spec.only_blank (String c (Urdf.universal_newlines (String a s))))
        with (Urdf.isspace c && Spec.only_blank (Urdf.universal_newlines (String a s))).
      rewrite (IH2 a). reflexivity.
Qed.

Lemma only_blank_universal_newlines (s : string) :
  Spec.only_blank (Urdf.universal_newlines s) = Spec.only_blank s.
Proof. apply only_blank_universal_newlines_step. Qed.

Section UrdfFacts.

Variable pendulum_urdf : string.
Variable may_write : gmap string string -> string -> bool.

Local Abbreviation addpendulum_urdf := (Urdf.addpendulum_urdf pendulum_urdf may_write).

(** A call that raises leaves every file as it was. *)
Lemma raise_writes_nothing (fs : gmap string string) (urdf_file_path save_to_path : string)
    (e : exn) :
  fst (addpendulum_urdf fs urdf_file_path save_to_path) = Raise e ->
  snd (addpendulum_urdf fs urdf_file_path save_to_path) = fs.
Proof.
  unfold Urdf.addpendulum_urdf. destruct (fs !! urdf_file_path) as [text|]; [|reflexivity].
  destruct (last _) as [l|]; [|reflexivity].
  destruct (may_write fs save_to_path); [discriminate | reflexivity].
Qed.

(** C8.  Nothing in [addpendulum_urdf] catches an exception.  On an input
    file that is empty or holds blank lines only, every line is popped, the
    look at the last line raises [IndexError], which is the outcome of the
    call, and no file is written.  A missing input file and a refused
    write end the call in the same way, with their own exceptions. *)
Theorem blank_input_raises_IndexError (fs : gmap string string)
    (urdf_file_path save_to_path text : string) :
  fs !! urdf_file_path = Some text ->
  Spec.only_blank text = true ->
  addpendulum_urdf fs urdf_file_path save_to_path = (Raise IndexError, fs) /\
  (forall fs' p, fs' !! p = None ->
     addpendulum_urdf fs' p save_to_path = (Raise FileNotFoundError, fs')) /\
  (forall fs' p, may_write fs' save_to_path = false ->
     exists e, addpendulum_urdf fs' p save_to_path = (Raise e, fs')) /\
  (forall fs' p e, fst (addpendulum_urdf fs' p save_to_path) = Raise e ->
     snd (addpendulum_urdf fs' p save_to_path) = fs').
Proof.
  intros Hfile Hblank. split; [|split; [|split]].
  - unfold Urdf.addpendulum_urdf. rewrite Hfile.
    rewrite pop_blank_lines_all; [reflexivity| |reflexivity].
    apply readlines_from_only_blank; [reflexivity|].
    rewrite only_blank_universal_newlines. exact Hblank.
  - intros fs' p Hp. unfold Urdf.addpendulum_urdf. rewrite Hp. reflexivity.
  - intros fs' p Hw. unfold Urdf.addpendulum_urdf.
    destruct (fs' !! p) as [t|]; [|eexists; reflexivity].
    destruct (last _) as [l|]; [|eexists; reflexivity].
    rewrite Hw. eexists; reflexivity.
  - intros fs' p e. apply raise_writes_nothing.
Qed.


End UrdfFacts.

Lemma blank_input_raises_IndexError_witness :
  Urdf.addpendulum_urdf Toy.pendulum_urdf Toy.may_write Toy.files
    "blank.urdf" "edo_sim_pendulum.urdf"
  = (Raise IndexError, Toy.files).
Proof.
  apply (blank_input_raises_IndexError Toy.pendulum_urdf Toy.may_write Toy.files
           "blank.urdf" "edo_sim_pendulum.urdf" Toy.blank_text).
  - reflexivity.
  - reflexivity.
Defined.



(** The edit of the toy robot description: the trailing blank line and the
    closing tag go, the pendulum text and a closing tag are appended. *)
Example toy_edit :
  snd (Urdf.addpendulum_urdf Toy.pendulum_urdf Toy.may_write Toy.files
         "edo.urdf" "edo_sim_pendulum.urdf") !! "edo_sim_pendulum.urdf"
  = Some ("<robot>" +:+ Toy.nl +:+ "  <link name=link_6/>" +:+ Toy.nl
          +:+ Toy.pendulum_urdf +:+ "</robot>" +:+ Toy.nl).
Proof. vm_compute. reflexivity. Qed.

(** * Further properties *)

(** ** The cart-pole sampler *)

Lemma for_range_ext {S R : Type} (body1 body2 : S -> flow S R) :
  (forall st, body1 st = body2 st) ->
  forall n st, for_range n body1 st = for_range n body2 st.
Proof.
  intros Hbody n. induction n as [|n IH]; intros st; [reflexivity|].
  cbn [for_range]. rewrite Hbody. destruct (body2 st); [apply IH | reflexivity].
Qed.

Section SamplerFacts.

Context {E G : Type}.
Variable reset : E -> observation * E.
Variable step : E -> Z -> observation * bool * bool * E.
Variable randint : Z -> Z -> G -> Z * G.

Local Abbreviation row_of := (Sampling.row_of step randint).
Local Abbreviation before_iteration := (Sampling.before_iteration reset step randint).
Local Abbreviation generate := (Sampling.generate_sample_of_system_dynamics reset step randint).

Lemma input_row_of env g s :
  input (row_of (env, g, s)) = (2 * fst (randint 0 2 g) - 1)%Z.
Proof.
  unfold Sampling.row_of. destruct (randint 0 2 g) as [a g1].
  destruct (step env a) as [[[next_s d] t] env1]. reflexivity.
Qed.

(** When the generator keeps its promise that [randint(0, 2)] is 0 or 1,
    the input column of the dataframe holds only -1 and 1. *)
Theorem sampler_inputs_are_signs env g nb_samples :
  (forall g', fst (randint 0 2 g') = 0%Z \/ fst (randint 0 2 g') = 1%Z) ->
  Forall (fun r => input r = (-1)%Z \/ input r = 1%Z)
         (fst (fst (generate env g nb_samples))).
Proof.
  intros Hrand. rewrite (generate_rows reset step randint).
  apply Forall_map, Forall_forall. intros i _.
  destruct (before_iteration i env g) as [[env_i g_i] s_i].
  rewrite input_row_of. destruct (Hrand g_i) as [-> | ->]; [left | right]; reflexivity.
Qed.

(** Within an episode the dataframe is a trajectory: after a step that did
    not terminate, the next row starts where this row's outcome columns
    end, and its angle is the angle of [next_s], which this row does not
    store. *)
Theorem sampler_rows_chain env g nb_samples i :
  (Datatypes.S i < Z.to_nat nb_samples)%nat ->
  let '(env_i, g_i, s_i) := before_iteration i env g in
  let '(a, _) := randint 0 2 g_i in
  let '(next_s, d, _, _) := step env_i a in
  d = false ->
  exists r r',
    fst (fst (generate env g nb_samples)) !! i = Some r /\
    fst (fst (generate env g nb_samples)) !! Datatypes.S i = Some r' /\
    x r' = evolution_x r /\ x_dot r' = evolution_x_dot r /\
    theta_dot r' = evolution_theta_dot r /\ theta r' = ob2 next_s.
Proof.
  intros Hi. pose proof (generate_next_pre_state reset step randint env g nb_samples i Hi) as H.
  destruct (before_iteration i env g) as [[env_i g_i] s_i].
  destruct (randint 0 2 g_i) as [a g'].
  destruct (step env_i a) as [[[next_s d] t] env'].
  intros ->. destruct H as (r & r' & Hr & Hr' & -> & Hpre & _).
  exists (sample_dict s_i (2 * a - 1)%Z next_s), r'.
  split; [exact Hr|]. split; [exact Hr'|].
  destruct r'; destruct next_s; cbn in Hpre |- *. injection Hpre as -> -> -> ->.
  repeat split; reflexivity.
Qed.

(** Asking for more samples from the same environment and generator only
    adds rows: the shorter dataframe is the beginning of the longer one. *)
Theorem sampler_prefix env g nb_samples nb_more :
  (0 <= nb_samples <= nb_more)%Z ->
  fst (fst (Sampling.generate_sample_of_system_dynamics reset step randint
              env g nb_samples)) =
  take (Z.to_nat nb_samples)
    (fst (fst (Sampling.generate_sample_of_system_dynamics reset step randint
                 env g nb_more))).
Proof.
  intros Hnb. rewrite !(generate_rows reset step randint).
  replace (Z.to_nat nb_more)
    with (Z.to_nat nb_samples + (Z.to_nat nb_more - Z.to_nat nb_samples))%nat by lia.
  rewrite seq_app, map_app, take_app_length'; [reflexivity|].
  rewrite length_map, length_seq. reflexivity.
Qed.

End SamplerFacts.

Section SamplerTruncation.

Context {E G : Type}.
Variable reset : E -> observation * E.
Variable step1 step2 : E -> Z -> observation * bool * bool * E.
Variable randint : Z -> Z -> G -> Z * G.

(** The cart-pole sampler never looks at the [truncated] flag: two
    environments that differ only in that flag give the same dataframe and
    are left in the same state, so a truncated episode is not restarted. *)
Theorem sampler_ignores_truncation env g nb_samples :
  (forall e a, fst (fst (fst (step1 e a))) = fst (fst (fst (step2 e a))) /\
               snd (fst (fst (step1 e a))) = snd (fst (fst (step2 e a))) /\
               snd (step1 e a) = snd (step2 e a)) ->
  Sampling.generate_sample_of_system_dynamics reset step1 randint env g nb_samples =
  Sampling.generate_sample_of_system_dynamics reset step2 randint env g nb_samples.
Proof.
  intros Hstep. unfold Sampling.generate_sample_of_system_dynamics.
  destruct (reset env) as [s env0].
  rewrite (for_range_ext (Sampling.body reset step1 randint)
             (Sampling.body reset step2 randint)); [reflexivity|].
  intros [[[e g0] s0] samples]. unfold Sampling.body.
  destruct (randint 0 2 g0) as [a g1]. specialize (Hstep e a).
  destruct (step1 e a) as [[[o1 d1] t1] e1], (step2 e a) as [[[o2 d2] t2] e2].
  cbn in Hstep. destruct Hstep as (-> & -> & ->). reflexivity.
Qed.

End SamplerTruncation.

Lemma toy_randint_range (g : nat) :
  fst (Toy.randint 0 2 g) = 0%Z \/ fst (Toy.randint 0 2 g) = 1%Z.
Proof.
  unfold Toy.randint. cbn [fst].
  pose proof (Z.mod_pos_bound (Z.of_nat g) (2 - 0)) as H. lia.
Qed.

Lemma sampler_inputs_are_signs_witness :
  Forall (fun r => input r = (-1)%Z \/ input r = 1%Z)
    (fst (fst (Sampling.generate_sample_of_system_dynamics
                 Toy.reset Toy.step Toy.randint 7%nat 0%nat 5))).
Proof.
  apply (sampler_inputs_are_signs Toy.reset Toy.step Toy.randint 7%nat 0%nat 5
           toy_randint_range).
Defined.

Lemma sampler_rows_chain_witness :
  exists r r',
    fst (fst (Sampling.generate_sample_of_system_dynamics
                Toy.reset Toy.step Toy.randint 7%nat 0%nat 5)) !! 1%nat = Some r /\
    fst (fst (Sampling.generate_sample_of_system_dynamics
                Toy.reset Toy.step Toy.randint 7%nat 0%nat 5)) !! 2%nat = Some r' /\
    x r' = evolution_x r /\ x_dot r' = evolution_x_dot r /\
    theta_dot r' = evolution_theta_dot r /\ theta r' = ob2 (Toy.observe 2 1).
Proof.
  apply (sampler_rows_chain Toy.reset Toy.step Toy.randint 7%nat 0%nat 5 1).
  - vm_compute. lia.
  - reflexivity.
Defined.

Lemma sampler_prefix_witness :
  fst (fst (Sampling.generate_sample_of_system_dynamics
              Toy.reset Toy.step Toy.randint 7%nat 0%nat 2)) =
  take (Z.to_nat 2)
    (fst (fst (Sampling.generate_sample_of_system_dynamics
                 Toy.reset Toy.step Toy.randint 7%nat 0%nat 5))).
Proof.
  apply (sampler_prefix Toy.reset Toy.step Toy.randint 7%nat 0%nat 2 5). lia.
Defined.

Lemma sampler_ignores_truncation_witness :
  Sampling.generate_sample_of_system_dynamics
    Toy.reset Toy.step Toy.randint 7%nat 0%nat 5 =
  Sampling.generate_sample_of_system_dynamics
    Toy.reset Fixture.step_truncating Toy.randint 7%nat 0%nat 5.
Proof.
  apply (sampler_ignores_truncation Toy.reset Toy.step Fixture.step_truncating
           Toy.randint 7%nat 0%nat 5).
  intros e a. repeat split; reflexivity.
Defined.

(** ** The PD law *)

Lemma broadcast_same_length (f : Q -> Q -> Q) (a b : list Q) :
  length a = length b -> Np.broadcast f a b = Ok (zip_with f a b).
Proof. intros H. unfold Np.broadcast. rewrite decide_True by exact H. reflexivity. Qed.

Lemma broadcast_mismatch (f : Q -> Q -> Q) (a b : list Q) :
  length a <> length b -> length a <> 1%nat -> length b <> 1%nat ->
  Np.broadcast f a b = Raise ValueError.
Proof.
  intros Hab Ha Hb. unfold Np.broadcast. rewrite decide_False by exact Hab.
  destruct a as [|u [|u' a]]; destruct b as [|v [|v' b]]; cbn in *;
    congruence || reflexivity.
Qed.



Lemma pd_control_mismatch (q_desired v_desired q_measured v_measured Kp Kd : list Q) :
  length q_desired <> length q_measured ->
  length q_desired <> 1%nat -> length q_measured <> 1%nat ->
  Control.pd_control q_desired v_desired q_measured v_measured Kp Kd = Raise ValueError.
Proof.
  intros H H1 H2. unfold Control.pd_control, Np.sub.
  rewrite (broadcast_mismatch Qminus q_desired q_measured H H1 H2). reflexivity.
Qed.

(** [pd_control] does not pad or cut its arguments: desired and measured
    positions of different lengths, neither of length 1, end in
    [ValueError]. *)
Theorem pd_control_shape_error (q_desired v_desired q_measured v_measured Kp Kd : list Q) :
  length q_desired <> length q_measured ->
  length q_desired <> 1%nat -> length q_measured <> 1%nat ->
  Control.pd_control q_desired v_desired q_measured v_measured Kp Kd = Raise ValueError.
Proof.
  intros H H1 H2. unfold Control.pd_control, Np.sub.
  rewrite (broadcast_mismatch Qminus q_desired q_measured H H1 H2). reflexivity.
Qed.


Lemma pd_control_shape_error_witness :
  Control.pd_control [0; 0; 0] [0; 0; 0] [1; 2] [0; 0] [20; 20] [1; 1] = Raise ValueError.
Proof.
  apply (pd_control_shape_error [0; 0; 0] [0; 0; 0] [1; 2] [0; 0] [20; 20] [1; 1]);
    discriminate.
Defined.

(** ** The control loop *)

Lemma for_range_S {S R : Type} (n : nat) (body : S -> flow S R) (st : S) :
  for_range (Datatypes.S n) body st =
  match body st with
  | Continue st' => for_range n body st'
  | Return r => inr r
  end.
Proof. reflexivity. Qed.



Lemma sent_within_refl {W : Type} (nq k : nat) (st : Control.sim (W := W)) :
  Goal.sent_within nq k st st.
Proof.
  exists []. split; [symmetry; apply app_nil_r|]. split; [cbn; lia | constructor].
Qed.

Section ControlLoopFacts.

Context {W : Type}.
Variable getNumJoints : W -> nat.
Variable getJointState : W -> Z -> Q * Q.
Variable torque_control : W -> Z -> Q -> W.
Variable stepSimulation : W -> W.

Local Abbreviation apply_torques := (Control.apply_torques torque_control).
Local Abbreviation control_body :=
  (Control.control_body getJointState torque_control stepSimulation).
Local Abbreviation control_to_desired_configuration :=
  (Control.control_to_desired_configuration getNumJoints getJointState
     torque_control stepSimulation).
Local Abbreviation reached := (Goal.reached getJointState).

(** The inner loop sends one command for each joint it gets to. *)
Lemma apply_torques_sent (nq : nat) (tau : list Q) (todo : list nat) :
  Forall (fun i => (i < nq)%nat) todo ->
  forall st,
    exists sent,
      snd (snd (apply_torques tau todo st)) = snd st ++ sent /\
      Forall (fun c => (0 <= fst c < Z.of_nat nq)%Z) sent /\
      (length sent <= length todo)%nat /\
      (forall u, fst (apply_torques tau todo st) = Ok u -> length sent = length todo).
Proof.
  induction 1 as [|i todo Hi _ IH]; intros st.
  - exists []. cbn. rewrite app_nil_r. repeat split; [constructor | lia].
  - cbn [Control.apply_torques]. destruct (tau !! i) as [force|].
    + destruct (IH (Control.setJointMotorControl2 torque_control st (Z.of_nat i) force))
        as (sent & Hsent & Hidx & Hle & Hok).
      exists ((Z.of_nat i, force) :: sent). cbn [Control.setJointMotorControl2 snd] in Hsent.
      rewrite Hsent, <- app_assoc. repeat split.
      * constructor; [cbn; lia | exact Hidx].
      * cbn. lia.
      * intros u Hu. cbn. rewrite (Hok u Hu). reflexivity.
    + exists []. cbn. rewrite app_nil_r. repeat split; [constructor | lia | discriminate].
Qed.

Lemma seq_below (nq : nat) : Forall (fun i => (i < nq)%nat) (seq 0 nq).
Proof. apply Forall_forall. intros i Hi. apply elem_of_seq in Hi. lia. Qed.

(** One pass either goes on after exactly [nq] commands, or returns
    normally because the target is reached, having sent nothing, or ends
    in an exception after at most [nq] commands. *)
Lemma control_body_cases q_desired v_desired eps nq Kp Kd (st : Control.sim) :
  match control_body q_desired v_desired eps nq Kp Kd st with
  | Continue st1 =>
      exists sent, snd st1 = snd st ++ sent /\ length sent = nq /\
        Forall (fun c => (0 <= fst c < Z.of_nat nq)%Z) sent
  | Return (Ok _, st1) => st1 = st /\ reached q_desired v_desired eps nq (fst st)
  | Return (Raise _, st1) => Goal.sent_within nq nq st st1
  end.
Proof.
  unfold Control.control_body, Goal.reached.
  destruct (Control.within (map fst _) q_desired eps) as [[|]|e] eqn:Hq;
    [destruct (Control.within (map snd _) v_desired eps) as [[|]|e] eqn:Hv| |];
    try (apply sent_within_refl); try (split; [reflexivity | split; reflexivity]).
  all: destruct (Control.pd_control _ _ _ _ _ _) as [t|e]; [|apply sent_within_refl].
  all: destruct (apply_torques_sent nq (Np.clip t (-50) 50) (seq 0 nq) (seq_below nq) st)
         as (sent & Hsent & Hidx & Hle & Hok).
  all: rewrite length_seq in Hle, Hok.
  all: destruct (apply_torques _ _ st) as [[u|e] st1]; cbn [fst snd] in *.
  all: try (exists sent; repeat split; [exact Hsent | exact (Hok u eq_refl) | exact Hidx]).
  all: exists sent; repeat split; assumption.
Qed.

Lemma control_loop_cases q_desired v_desired eps nq Kp Kd (n : nat) :
  forall st : Control.sim,
    match for_range n (control_body q_desired v_desired eps nq Kp Kd) st with
    | inl st' =>
        exists sent, snd st' = snd st ++ sent /\ length sent = (n * nq)%nat /\
          Forall (fun c => (0 <= fst c < Z.of_nat nq)%Z) sent
    | inr (Ok _, st') =>
        Goal.sent_within nq (n * nq) st st' /\
        reached q_desired v_desired eps nq (fst st')
    | inr (Raise _, st') => Goal.sent_within nq (n * nq) st st'
    end.
Proof.
  induction n as [|n IH]; intros st.
  - exists []. cbn. rewrite app_nil_r. repeat split. constructor.
  - rewrite for_range_S.
    pose proof (control_body_cases q_desired v_desired eps nq Kp Kd st) as Hbody.
    destruct (control_body q_desired v_desired eps nq Kp Kd st) as [st1|[[u|e] st1]].
    + destruct Hbody as (sent1 & Hsent1 & Hlen1 & Hidx1). specialize (IH st1).
      destruct (for_range n _ st1) as [st'|[[u|e] st']].
      * destruct IH as (sent & Hsent & Hlen & Hidx). exists (sent1 ++ sent).
        rewrite Hsent, Hsent1, <- app_assoc, length_app, Forall_app. repeat split; auto.
        cbn. lia.
      * destruct IH as [(sent & Hsent & Hlen & Hidx) Hreached]. split; [|exact Hreached].
        exists (sent1 ++ sent).
        rewrite Hsent, Hsent1, <- app_assoc, length_app, Forall_app. repeat split; auto.
        cbn. lia.
      * destruct IH as (sent & Hsent & Hlen & Hidx). exists (sent1 ++ sent).
        rewrite Hsent, Hsent1, <- app_assoc, length_app, Forall_app. repeat split; auto.
        cbn. lia.
    + destruct Hbody as [-> Hreached]. split; [apply sent_within_refl | exact Hreached].
    + destruct Hbody as (sent & Hsent & Hlen & Hidx). exists sent. repeat split; auto.
      cbn. lia.
Qed.

(** A normal return of [control_to_desired_configuration] means one of two
    things: the joints are within [eps] of the desired positions and
    velocities in the server as it is left, or the budget is spent, that
    is, all 1000 passes ran and each sent one command per joint. *)
Theorem control_returns_reached_or_spent (q_desired v_desired : list Q) (eps : Q)
    (st : Control.sim) :
  let nq := getNumJoints (fst st) in
  let out := control_to_desired_configuration q_desired v_desired eps st in
  fst out = Ok tt ->
  reached q_desired v_desired eps nq (fst (snd out)) \/
  length (snd (snd out)) = (length (snd st) + 1000 * nq)%nat.
Proof.
  intros nq out. subst out. unfold Control.control_to_desired_configuration.
  fold nq.
  pose proof (control_loop_cases q_desired v_desired eps nq
                (Np.scale 20 (Np.ones nq)) (Np.scale 0.05 (Np.scale 20 (Np.ones nq)))
                1000 st) as Hloop.
  destruct (for_range 1000 _ st) as [st'|[[u|e] st']]; cbn [fst snd].
  - intros _. right. destruct Hloop as (sent & -> & Hlen & _).
    rewrite length_app, Hlen. reflexivity.
  - intros _. left. apply Hloop.
  - discriminate.
Qed.

(** The work of one call is bounded: it sends at most 1000 commands per
    joint, all of them to joints [0 .. nq-1], and keeps the commands sent
    before. *)
Theorem control_sends_bounded_work (q_desired v_desired : list Q) (eps : Q)
    (st : Control.sim) :
  let nq := getNumJoints (fst st) in
  exists sent,
    snd (snd (control_to_desired_configuration q_desired v_desired eps st))
      = snd st ++ sent /\
    (length sent <= 1000 * nq)%nat /\
    Forall (fun c => (0 <= fst c < Z.of_nat nq)%Z) sent.
Proof.
  intros nq. unfold Control.control_to_desired_configuration. fold nq.
  pose proof (control_loop_cases q_desired v_desired eps nq
                (Np.scale 20 (Np.ones nq)) (Np.scale 0.05 (Np.scale 20 (Np.ones nq)))
                1000 st) as Hloop.
  destruct (for_range 1000 _ st) as [st'|[[u|e] st']]; cbn [fst snd].
  - destruct Hloop as (sent & Hsent & Hlen & Hidx). exists sent. repeat split; auto. lia.
  - apply Hloop.
  - apply Hloop.
Qed.



End ControlLoopFacts.

Lemma control_returns_reached_or_spent_witness :
  Goal.reached Toy.getJointState [0] [0] Control.eps_default 1 0 \/
  length (snd (snd (Control.control_to_desired_configuration Toy.getNumJoints
                      Toy.getJointState Toy.torque_control Toy.stepSimulation
                      [0] [0] Control.eps_default (0, []))))
  = (0 + 1000 * 1)%nat.
Proof.
  apply (control_returns_reached_or_spent Toy.getNumJoints Toy.getJointState
           Toy.torque_control Toy.stepSimulation [0] [0] Control.eps_default (0, [])).
  reflexivity.
Defined.



(** On the toy server with a far target the budget is spent: a normal
    return after 1000 commands, the joint still away from the target. *)
Example toy_budget_spent :
  let out := Control.control_to_desired_configuration Toy.getNumJoints
               Toy.getJointState Toy.torque_control Toy.stepSimulation
               [100] [0] Control.eps_default (0, []) in
  fst out = Ok tt /\ length (snd (snd out)) = 1000%nat /\
  Control.within [0] [100] Control.eps_default = Ok false.
Proof. vm_compute. repeat split; reflexivity. Qed.

(** ** Moving the end effector *)


Section MoveFacts.

Context {W : Type}.
Variable getNumJoints : W -> nat.
Variable getJointState : W -> Z -> float * float.
Variable torque_control : W -> Z -> float -> W.
Variable stepSimulation : W -> W.
Variable calculateInverseKinematics : W -> Z -> list float -> list float.
Variable getLinkState : W -> Z -> list (list float).

Lemma move_sent_clipped (traj : list (list float)) (eff_idx : Z) :
  forall st : FControl.sim,
    Bound.sent_clipped st
      (snd (FControl.move_end_effector_along_trajectory getNumJoints getJointState
              torque_control stepSimulation calculateInverseKinematics traj eff_idx st)).
Proof.
  induction traj as [|target traj IH]; intros st; [apply sent_clipped_refl|].
  cbn [FControl.move_end_effector_along_trajectory].
  pose proof (control_sent_clipped getNumJoints getJointState torque_control
                stepSimulation
                (calculateInverseKinematics (fst st) eff_idx target)
                (FNp.zeros_like (calculateInverseKinematics (fst st) eff_idx target))
                FControl.eps_default st) as Hfirst.
  destruct (FControl.control_to_desired_configuration _ _ _ _ _ _ _ st) as [[u|e] st1];
    cbn [snd] in Hfirst |- *; [|exact Hfirst].
  eapply sent_clipped_trans; [exact Hfirst | apply IH].
Qed.

(** X11.  The clipping carries over to a whole trajectory: whatever the
    targets, the inverse kinematics and the server, every command sent
    while the end effector is moved carries a force that is -50, 50,
    strictly between them, or a not-a-number, also when the move ends in
    an exception. *)
Theorem trajectory_torques_clipped (traj : list (list float)) (eff_idx : Z)
    (st : FControl.sim) :
  exists sent,
    snd (snd (FControl.move_end_effector_along_trajectory getNumJoints getJointState
                torque_control stepSimulation calculateInverseKinematics
                traj eff_idx st)) = snd st ++ sent /\
    Forall (fun c =>
              PrimFloat.is_nan (snd c) = true \/
              snd c = (-50)%float \/ snd c = 50%float \/
              (PrimFloat.ltb (-50) (snd c) = true /\ PrimFloat.ltb (snd c) 50 = true))
           sent.
Proof. exact (move_sent_clipped traj eff_idx st). Qed.

(** X12.  The same holds for what one step of the realistic environment
    sends before it raises, for any action, however large: the action
    moves the target, never the torque limit.  With the global name
    [pendulum_joint] unbound nothing is sent at all. *)
Theorem step_torques_clipped (global_pendulum_joint : option Z)
    (env : EnvRealistic.self) (action : float) (st : FControl.sim) :
  (exists sent,
     snd (snd (EnvRealistic.step getNumJoints getJointState torque_control
                 stepSimulation calculateInverseKinematics getLinkState
                 global_pendulum_joint env action st)) = snd st ++ sent /\
     Forall (fun c =>
               PrimFloat.is_nan (snd c) = true \/
               snd c = (-50)%float \/ snd c = 50%float \/
               (PrimFloat.ltb (-50) (snd c) = true /\ PrimFloat.ltb (snd c) 50 = true))
            sent) /\
  snd (snd (EnvRealistic.step getNumJoints getJointState torque_control
              stepSimulation calculateInverseKinematics getLinkState
              None env action st)) = snd st.
Proof.
  split; [|reflexivity].
  change (Bound.sent_clipped st
            (snd (EnvRealistic.step getNumJoints getJointState torque_control
                    stepSimulation calculateInverseKinematics getLinkState
                    global_pendulum_joint env action st))).
  unfold EnvRealistic.step.
  destruct global_pendulum_joint as [eff_idx|]; [|apply sent_clipped_refl].
  match goal with
  | |- context [FControl.move_end_effector_along_trajectory _ _ _ _ _ ?traj ?j st] =>
      pose proof (move_sent_clipped traj j st) as Hmove;
      destruct (FControl.move_end_effector_along_trajectory getNumJoints getJointState
                  torque_control stepSimulation calculateInverseKinematics traj j st)
        as [[u|e] st1]
  end; cbn [snd] in Hmove |- *; [|exact Hmove].
  destruct (EnvRealistic.get_state getJointState getLinkState env (fst st1))
    as [[[[? ?] ?] ?]|e]; exact Hmove.
Qed.


End MoveFacts.

(** On the toy server a not-a-number reading is sent on as a force. *)
Example toy_trajectory_not_a_number :
  head (snd (snd (FControl.move_end_effector_along_trajectory FToy.getNumJoints
                    FToy.getJointState FToy.torque_control FToy.stepSimulation
                    (fun w i target => target) [[0%float]] 0 ((nan, 0%float), []))))
  = Some (0%Z, nan).
Proof. vm_compute. reflexivity. Qed.

(** ** What the edit writes *)

Section EditFacts.

Variable pendulum_urdf : string.
Variable may_write : gmap string string -> string -> bool.

Local Abbreviation addpendulum_urdf := (Urdf.addpendulum_urdf pendulum_urdf may_write).

(** The lines left after the [while] loop, for the text of the input
    file. *)
Lemma kept_lines (text : string) :
  exists dropped,
    text = String.concat EmptyString
             (Urdf.pop_blank_lines (length (Urdf.readlines text)) (Urdf.readlines text))
           +:+ String.concat EmptyString dropped /\
    Spec.only_blank (String.concat EmptyString dropped) = true /\
    (forall l, last (Urdf.pop_blank_lines (length (Urdf.readlines text))
                       (Urdf.readlines text)) = Some l ->
               Spec.only_blank l = false /\ In l (Urdf.readlines text)).
Proof.
  destruct (pop_blank_lines_split (length (Urdf.readlines text)) (Urdf.readlines text)
              (le_n _)) as (dropped & Hsplit & Hdropped & Hstop).
  exists dropped. split; [|split].
  - rewrite <- concat_app, <- Hsplit, concat_readlines. reflexivity.
  - rewrite only_blank_concat. exact Hdropped.
  - intros l Hl. split; [apply Hstop, Hl|].
    apply last_Some in Hl as [front Hl]. rewrite Hsplit, Hl.
    apply in_or_app. left. apply in_or_app. right. left. reflexivity.
Qed.


(** X14.  What a successful edit writes.  The text as read, that is the
    stored text with every carriage return and line feed, and every lone
    carriage return, turned into one line feed, ends with its last line
    that is not blank, followed by whitespace only.  The output is the
    text as read up to that line, the line itself unless it strips to the
    closing tag of the robot, then the pendulum text and a closing tag:
    nothing that was read before the last non-blank line is touched, and
    trailing blank lines are not kept. *)
Theorem edit_output (fs : gmap string string) (urdf_file_path save_to_path stored : string) :
  fs !! urdf_file_path = Some stored ->
  fst (addpendulum_urdf fs urdf_file_path save_to_path) = Ok tt ->
  let text := Urdf.universal_newlines stored in
  exists front last_line blanks,
    text = front +:+ last_line +:+ blanks /\
    In last_line (Urdf.readlines text) /\
    Spec.only_blank last_line = false /\ Spec.only_blank blanks = true /\
    snd (addpendulum_urdf fs urdf_file_path save_to_path) !! save_to_path =
      Some ((if decide (Urdf.strip last_line = "</robot>") then front
             else front +:+ last_line)
            +:+ pendulum_urdf +:+ "</robot>" +:+ String Urdf.newline EmptyString).
Proof.
  intros Hfile. unfold Urdf.addpendulum_urdf. rewrite Hfile.
  destruct (kept_lines (Urdf.universal_newlines stored))
    as (dropped & Htext & Hdropped & Hstop).
  destruct (last (Urdf.pop_blank_lines _ _)) as [l|] eqn:Hlast; [|discriminate].
  destruct (Hstop l eq_refl) as [Hl Hin].
  destruct (may_write fs save_to_path); [|discriminate]. intros _. cbv zeta.
  apply last_Some in Hlast as [front Hkept]. rewrite Hkept in Htext |- *.
  exists (String.concat EmptyString front), l, (String.concat EmptyString dropped).
  split; [|split; [exact Hin|split; [exact Hl|split; [exact Hdropped|]]]].
  - rewrite Htext at 1. rewrite concat_app, string_app_assoc. reflexivity.
  - cbn [snd]. rewrite lookup_insert_eq. f_equal.
    destruct (decide (Urdf.strip l = "</robot>")).
    + rewrite removelast_last, !concat_app. cbn [String.concat].
      rewrite string_app_assoc. reflexivity.
    + rewrite !concat_app. cbn [String.concat]. rewrite !string_app_assoc. reflexivity.
Qed.

End EditFacts.

Lemma edit_output_witness :
  exists front last_line blanks,
    Urdf.universal_newlines Fixture.robot_text_crlf = front +:+ last_line +:+ blanks /\
    In last_line (Urdf.readlines (Urdf.universal_newlines Fixture.robot_text_crlf)) /\
    Spec.only_blank last_line = false /\ Spec.only_blank blanks = true /\
    snd (Urdf.addpendulum_urdf Toy.pendulum_urdf Toy.may_write Fixture.files_crlf
           "edo.urdf" "edo_sim_pendulum.urdf") !! "edo_sim_pendulum.urdf" =
      Some ((if decide (Urdf.strip last_line = "</robot>") then front
             else front +:+ last_line)
            +:+ Toy.pendulum_urdf +:+ "</robot>" +:+ String Urdf.newline EmptyString).
Proof.
  apply (edit_output Toy.pendulum_urdf Toy.may_write Fixture.files_crlf
           "edo.urdf" "edo_sim_pendulum.urdf" Fixture.robot_text_crlf); reflexivity.
Defined.

(** A description stored with carriage returns is edited as it is read:
    the output has line feeds only, and the closing tag of the input is
    replaced. *)
Example toy_edit_crlf :
  snd (Urdf.addpendulum_urdf Toy.pendulum_urdf Toy.may_write Fixture.files_crlf
         "edo.urdf" "edo_sim_pendulum.urdf") !! "edo_sim_pendulum.urdf"
  = Some ("<robot>" +:+ Toy.nl +:+ "  <link name=link_6/>" +:+ Toy.nl
          +:+ Toy.pendulum_urdf +:+ "</robot>" +:+ Toy.nl).
Proof. vm_compute. reflexivity. Qed.

(** ** The torque cell of the first notebook *)

Lemma for_range_continue {S R : Type} (body : S -> flow S R) (next : S -> S) :
  (forall st, body st = Continue (next st)) ->
  forall n st, for_range n body st = inl (Nat.iter n next st).
Proof.
  intros Hbody n. induction n as [|n IH]; intros st; [reflexivity|].
  rewrite for_range_S, Hbody, IH, Nat.iter_succ_r. reflexivity.
Qed.

Lemma pd_control_same_length (q_desired v_desired q_measured v_measured Kp Kd : list Q) :
  length v_desired = length q_desired -> length q_measured = length q_desired ->
  length v_measured = length q_desired -> length Kp = length q_desired ->
  length Kd = length q_desired ->
  exists tau, Control.pd_control q_desired v_desired q_measured v_measured Kp Kd = Ok tau.
Proof.
  intros Hv Hqm Hvm Hkp Hkd. unfold Control.pd_control, Np.sub, Np.mul, Np.add.
  rewrite (broadcast_same_length Qminus q_desired) by lia. cbn [mbind result_bind].
  rewrite (broadcast_same_length Qminus v_desired) by lia. cbn [mbind result_bind].
  rewrite (broadcast_same_length Qmult Kp) by (rewrite length_zip_with; lia).
  cbn [mbind result_bind].
  rewrite (broadcast_same_length Qmult Kd) by (rewrite length_zip_with; lia).
  cbn [mbind result_bind].
  rewrite broadcast_same_length by (rewrite !length_zip_with; lia).
  eexists. reflexivity.
Qed.

Section TheoTorqueFacts.

Context {W : Type}.
Variable getNumJoints : W -> nat.
Variable getJointState : W -> Z -> Q * Q.
Variable torque_control : W -> Z -> Q -> W.
Variable stepSimulation : W -> W.

Local Abbreviation torque_body := (Theo.torque_body getJointState torque_control stepSimulation).
Local Abbreviation torque_cell :=
  (Theo.torque_cell getNumJoints getJointState torque_control stepSimulation).

Lemma torque_body_six (st : Control.sim) :
  torque_body 6 st =
  Continue (stepSimulation (torque_control (fst st) 2 10), snd st ++ [(2%Z, 10)]).
Proof.
  unfold Theo.torque_body.
  match goal with
  | |- context [Control.pd_control ?a ?b ?c ?d ?e ?f] =>
      destruct (pd_control_same_length a b c d e f) as [tau ->]
  end; reflexivity.
Qed.

Lemma iter_torque_pass (n : nat) (w : W) (log : list (Z * Q)) :
  Nat.iter n
    (fun st : Control.sim =>
       (stepSimulation (torque_control (fst st) 2 10), snd st ++ [(2%Z, 10)]))
    (w, log)
  = (Nat.iter n (fun w => stepSimulation (torque_control w 2 10)) w,
     log ++ repeat (2%Z, 10) n).
Proof.
  induction n as [|n IH]; [cbn; rewrite app_nil_r; reflexivity|].
  rewrite !Nat.iter_succ, IH. cbn [fst snd repeat].
  rewrite <- app_assoc, <- repeat_cons. reflexivity.
Qed.

(** On an arm with six joints the cell sends the same command 25 times,
    joint 2 with force 10, once per simulation step, whatever the joints
    do: the torque that [pd_control] computes never reaches the server. *)
Theorem torque_cell_six_joints (st : Control.sim) :
  getNumJoints (fst st) = 6%nat ->
  torque_cell st =
  (Ok tt,
   (Nat.iter 25 (fun w => stepSimulation (torque_control w 2 10)) (fst st),
    snd st ++ repeat (2%Z, 10) 25)).
Proof.
  intros Hnq. unfold Theo.torque_cell. rewrite Hnq.
  rewrite (for_range_continue _ _ torque_body_six).
  destruct st as [w log]. rewrite iter_torque_pass. reflexivity.
Qed.

(** The desired configuration of the cell has six entries: on an arm with
    another number of joints, other than one, the first pass ends in
    [ValueError] and nothing is sent. *)
Theorem torque_cell_shape_error (st : Control.sim) :
  getNumJoints (fst st) <> 6%nat -> getNumJoints (fst st) <> 1%nat ->
  torque_cell st = (Raise ValueError, st).
Proof.
  intros H6 H1. unfold Theo.torque_cell. rewrite for_range_S. unfold Theo.torque_body.
  rewrite pd_control_mismatch; [reflexivity| | |];
    rewrite ?length_map, ?length_seq; cbn; congruence.
Qed.

End TheoTorqueFacts.

Lemma torque_cell_six_joints_witness :
  Theo.torque_cell Fixture.getNumJoints6 Toy.getJointState Toy.torque_control
    Toy.stepSimulation (0.3, [])
  = (Ok tt,
     (Nat.iter 25 (fun w => Toy.stepSimulation (Toy.torque_control w 2 10)) 0.3,
      [] ++ repeat (2%Z, 10) 25)).
Proof.
  apply (torque_cell_six_joints Fixture.getNumJoints6 Toy.getJointState
           Toy.torque_control Toy.stepSimulation (0.3, [])).
  reflexivity.
Defined.

Lemma torque_cell_shape_error_witness :
  Theo.torque_cell Fixture.getNumJoints0 Toy.getJointState Toy.torque_control
    Toy.stepSimulation (0.3, [])
  = (Raise ValueError, (0.3, [])).
Proof.
  apply (torque_cell_shape_error Fixture.getNumJoints0 Toy.getJointState
           Toy.torque_control Toy.stepSimulation (0.3, [])); discriminate.
Defined.

(** ** The URDF cell of the first notebook *)

Lemma copies_snoc (n : nat) (s : string) :
  Goal.copies (Datatypes.S n) s = Goal.copies n s +:+ s.
Proof.
  induction n as [|n IH]; [cbn; rewrite string_app_nil_r; reflexivity|].
  change (s +:+ Goal.copies (Datatypes.S n) s = (s +:+ Goal.copies n s) +:+ s).
  rewrite IH, string_app_assoc. reflexivity.
Qed.

(** A text without carriage return is read as it is, and the text read
    never holds one. *)
Lemma universal_newlines_no_cr (s : string) :
  Goal.no_cr s = true -> Urdf.universal_newlines s = s.
Proof.
  induction s as [|c s IH]; [reflexivity|]. cbn [Goal.no_cr]. intros H.
  apply andb_true_iff in H as [Hc Hs]. apply negb_true_iff in Hc.
  cbn [Urdf.universal_newlines]. rewrite Hc, (IH Hs). reflexivity.
Qed.

Lemma no_cr_universal_newlines_step (s : string) :
  Goal.no_cr (Urdf.universal_newlines s) = true /\
  (forall c, Goal.no_cr (Urdf.universal_newlines (String c s)) = true).
Proof.
  induction s as [|a s [IH1 IH2]].
  - split; [reflexivity|]. intros c. cbn [Urdf.universal_newlines].
    destruct (Ascii.eqb c Urdf.carriage_return) eqn:Hc; [reflexivity|].
    cbn [Goal.no_cr]. rewrite Hc. reflexivity.
  - split; [apply IH2|]. intros c.
    change (Urdf.universal_newlines (String c (String a s)))
      with (if Ascii.eqb c Urdf.carriage_return
            then if Ascii.eqb a Urdf.newline
                 then String Urdf.newline (Urdf.universal_newlines s)
                 else String Urdf.newline (Urdf.universal_newlines (String a s))
            else String c (Urdf.universal_newlines (String a s))).
    destruct (Ascii.eqb c Urdf.carriage_return) eqn:Hc.
    + destruct (Ascii.eqb a Urdf.newline).
      * cbn [Goal.no_cr]. rewrite IH1. reflexivity.
      * change (Goal.no_cr (String Urdf.newline (Urdf.universal_newlines (String a s))))
          with (negb (Ascii.eqb Urdf.newline Urdf.carriage_return)
                && Goal.no_cr (Urdf.universal_newlines (String a s))).
        rewrite (IH2 a). reflexivity.
    + change (Goal.no_cr (String c (Urdf.universal_newlines (String a s))))
        with (negb (Ascii.eqb c Urdf.carriage_return)
              && Goal.no_cr (Urdf.universal_newlines (String a s))).
      rewrite Hc, (IH2 a). reflexivity.
Qed.

Lemma no_cr_universal_newlines (s : string) :
  Goal.no_cr (Urdf.universal_newlines s) = true.
Proof. apply no_cr_universal_newlines_step. Qed.

Lemma no_cr_app (s t : string) : Goal.no_cr (s +:+ t) = Goal.no_cr s && Goal.no_cr t.
Proof.
  induction s as [|c s IH]; [reflexivity|].
  change (negb (Ascii.eqb c Urdf.carriage_return) && Goal.no_cr (s +:+ t)
          = negb (Ascii.eqb c Urdf.carriage_return) && Goal.no_cr s && Goal.no_cr t).
  rewrite IH, andb_assoc. reflexivity.
Qed.

Lemma no_cr_copies (n : nat) (s : string) :
  Goal.no_cr s = true -> Goal.no_cr (Goal.copies n s) = true.
Proof.
  intros Hs. induction n as [|n IH]; [reflexivity|].
  cbn [Goal.copies]. rewrite no_cr_app, Hs, IH. reflexivity.
Qed.

Section TheoUrdfFacts.

Variable pendulum_link : string.
Variable pendulum_joint : string.
Variable may_write : gmap string string -> string -> bool.

Local Abbreviation urdf_cell := (Theo.urdf_cell pendulum_link pendulum_joint may_write).

(** X17.  The cell edits the description in place and is not idempotent.
    The two appended texts hold no carriage return, being literals of the
    notebook.  When writing is granted, the first run leaves the file
    holding its text as read, carriage returns translated to line feeds,
    followed by the two texts, and each further run appends them once
    more: after [n + 1] runs the file ends with [n + 1] copies; no other
    file changes; and without the file nothing is written and nothing is
    raised. *)
Theorem urdf_cell_appends_each_run (fs : gmap string string) (urdf_path : string)
    (n : nat) :
  Goal.no_cr pendulum_link = true -> Goal.no_cr pendulum_joint = true ->
  (forall fs', may_write fs' urdf_path = true) ->
  let after := Nat.iter (S n) (fun fs' => snd (urdf_cell fs' urdf_path)) fs in
  after !! urdf_path =
    (fun stored => Urdf.universal_newlines stored
                   +:+ Goal.copies (S n) (pendulum_link +:+ pendulum_joint))
      <$> fs !! urdf_path /\
  (forall p, p <> urdf_path -> after !! p = fs !! p) /\
  (fs !! urdf_path = None -> urdf_cell fs urdf_path = (Ok tt, fs)).
Proof.
  intros Hlink Hjoint Hw after. subst after. split; [|split].
  - induction n as [|n IH].
    + cbn [Nat.iter nat_rect]. unfold Theo.urdf_cell. rewrite Hw.
      destruct (fs !! urdf_path) as [stored|] eqn:Hfile;
        cbn [fmap option_fmap option_map snd].
      * rewrite lookup_insert_eq. cbn [Goal.copies].
        rewrite string_app_nil_r, string_app_assoc. reflexivity.
      * exact Hfile.
    + rewrite Nat.iter_succ. unfold Theo.urdf_cell at 1. rewrite IH, Hw.
      destruct (fs !! urdf_path) as [stored|]; cbn [fmap option_fmap option_map snd].
      * rewrite lookup_insert_eq. f_equal.
        rewrite universal_newlines_no_cr.
        -- rewrite (copies_snoc (Datatypes.S n)), !string_app_assoc. reflexivity.
        -- rewrite no_cr_app, no_cr_universal_newlines.
           apply no_cr_copies. rewrite no_cr_app, Hlink, Hjoint. reflexivity.
      * exact IH.
  - intros p Hp. induction (Datatypes.S n) as [|m IH]; [reflexivity|].
    rewrite Nat.iter_succ. unfold Theo.urdf_cell at 1.
    destruct (_ !! urdf_path); [|exact IH]. rewrite Hw. cbn [snd].
    rewrite lookup_insert_ne by congruence. exact IH.
  - intros Hnone. unfold Theo.urdf_cell. rewrite Hnone. reflexivity.
Qed.

End TheoUrdfFacts.

Lemma urdf_cell_appends_each_run_witness :
  Nat.iter 2 (fun fs' => snd (Theo.urdf_cell "<link/>" "<joint/>" Toy.may_write fs' "edo.urdf"))
    Fixture.files_crlf !! "edo.urdf"
  = (fun stored => Urdf.universal_newlines stored
                   +:+ Goal.copies 2 ("<link/>" +:+ "<joint/>"))
      <$> Fixture.files_crlf !! "edo.urdf".
Proof.
  refine (proj1 (urdf_cell_appends_each_run "<link/>" "<joint/>" Toy.may_write
                   Fixture.files_crlf "edo.urdf" 1 _ _ _)); reflexivity.
Defined.

(** Two runs on the description stored with carriage returns. *)
Example toy_urdf_cell_crlf :
  Nat.iter 2 (fun fs' => snd (Theo.urdf_cell "<link/>" "<joint/>" Toy.may_write fs' "edo.urdf"))
    Fixture.files_crlf !! "edo.urdf"
  = Some ("<robot>" +:+ Toy.nl +:+ "  <link name=link_6/>" +:+ Toy.nl
          +:+ "</robot>" +:+ Toy.nl +:+ "<link/><joint/><link/><joint/>").
Proof. vm_compute. reflexivity. Qed.

(** ** Resetting the arm *)

Section ArmFacts.

Context {W : Type}.
Variable getNumJoints : W -> Z -> nat.
Variable resetJointState : W -> Z -> Z -> Q -> Q -> W.
Variable velocity_control : W -> Z -> Z -> Q -> W.
Variable robot_id : Z.

Local Abbreviation reset_joints :=
  (Arm.reset_joints resetJointState velocity_control robot_id).
Local Abbreviation reset_to_initial_state :=
  (Arm.reset_to_initial_state getNumJoints resetJointState velocity_control robot_id).

Lemma reset_joints_calls (body_id : Z) (positions : list Q) (len : nat) :
  forall (start : nat) (st : Arm.sim),
    let k := (Nat.min (start + len) (Nat.max start (length positions)) - start)%nat in
    snd (snd (reset_joints body_id positions (seq start len) st)) =
      snd st ++
      flat_map
        (fun i =>
           match positions !! i with
           | Some target =>
               [Arm.ResetJointState body_id (Z.of_nat i) target 0;
                Arm.VelocityControl robot_id (Z.of_nat i) 0]
           | None => []
           end)
        (seq start k) /\
    fst (reset_joints body_id positions (seq start len) st) =
      (if (start + len <=? Nat.max start (length positions))%nat
       then Ok tt else Raise IndexError).
Proof.
  induction len as [|len IH]; intros start st k.
  - subst k. replace (_ - start)%nat with 0%nat by lia. cbn.
    rewrite app_nil_r. split; [reflexivity|].
    destruct (Nat.leb_spec (start + 0) (Nat.max start (length positions))); [reflexivity | lia].
  - cbn [seq Arm.reset_joints]. destruct (positions !! start) as [target|] eqn:Hstart.
    + apply lookup_lt_Some in Hstart as Hlt.
      match goal with
      | |- context [reset_joints body_id positions (seq (Datatypes.S start) len) ?st1] =>
          set (s1 := st1); destruct (IH (Datatypes.S start) s1) as [Hlog Hres]
      end.
      subst k. split.
      * rewrite Hlog. subst s1. cbn [snd]. rewrite <- !app_assoc. f_equal.
        replace (Nat.min (start + Datatypes.S len) (Nat.max start (length positions)) - start)%nat
          with (Datatypes.S (Nat.min (Datatypes.S start + len)
                               (Nat.max (Datatypes.S start) (length positions))
                             - Datatypes.S start))%nat by lia.
        cbn [seq flat_map]. rewrite Hstart. reflexivity.
      * rewrite Hres.
        destruct (Nat.leb_spec (Datatypes.S start + len)
                    (Nat.max (Datatypes.S start) (length positions)));
          destruct (Nat.leb_spec (start + Datatypes.S len)
                      (Nat.max start (length positions))); try reflexivity; lia.
    + apply lookup_ge_None in Hstart. subst k.
      replace (_ - start)%nat with 0%nat by lia. cbn. rewrite app_nil_r.
      split; [reflexivity|].
      destruct (Nat.leb_spec (start + Datatypes.S len) (Nat.max start (length positions)));
        [lia | reflexivity].
Qed.

(** [reset_to_initial_state] gives up in the middle when the list of
    positions is too short: the joints that have a position are reset and
    their motors released, in order, and then the call ends in
    [IndexError]; with a position for each joint, and always with the
    default of all zeros, it resets every joint and returns.  The joints
    are reset on [body_id] while the motors are released on the global
    [robot_id]. *)
Theorem reset_until_positions_run_out (body_id : Z)
    (initial_joint_positions : option (list Q)) (st : Arm.sim) :
  let n := getNumJoints (fst st) body_id in
  let positions :=
    match initial_joint_positions with None => repeat 0 n | Some l => l end in
  let out := reset_to_initial_state body_id initial_joint_positions st in
  snd (snd out) =
    snd st ++ Goal.reset_calls body_id robot_id positions (Nat.min n (length positions)) /\
  fst out = (if (n <=? length positions)%nat then Ok tt else Raise IndexError) /\
  (initial_joint_positions = None -> fst out = Ok tt).
Proof.
  intros n positions out. subst out. unfold Arm.reset_to_initial_state. fold n. fold positions.
  destruct (reset_joints_calls body_id positions n 0 st) as [Hlog Hres].
  cbn [Nat.add Nat.max] in Hlog, Hres. rewrite Nat.sub_0_r in Hlog.
  split; [exact Hlog|]. split; [exact Hres|].
  intros Hnone. rewrite Hres. subst positions. rewrite Hnone, repeat_length.
  rewrite Nat.leb_refl. reflexivity.
Qed.

End ArmFacts.

(** Three joints and two positions: two joints are reset, then the call
    raises. *)
Example toy_reset_short_list :
  Arm.reset_to_initial_state Fixture.getNumJoints3 Fixture.resetJointState
    Fixture.velocity_control 7 1 (Some [0.5; 0.25]) (0%nat, [])
  = (Raise IndexError,
     (4%nat, [Arm.ResetJointState 1 0 0.5 0; Arm.VelocityControl 7 0 0;
              Arm.ResetJointState 1 1 0.25 0; Arm.VelocityControl 7 1 0])).
Proof. reflexivity. Qed.
